(** * HomeFinder: the shared schema and its insert and filter validators

    A model of [shared/schema.ts]: the four tables declared with
    drizzle-orm's [pgTable], the insert schemas derived from them with
    drizzle-zod's [createInsertSchema], and the hand-written
    [propertyFilterSchema].  The schemas are terms of a small schema
    language whose interpreter [parse] follows zod 3's synchronous
    [_parse] methods; the table declarations are records built with the
    same column builders the source chains. *)

From Stdlib Require Import ZArith Lia List Bool Ascii String DecimalString.
From stdpp Require Import base option list gmap strings.

Set Warnings "-register-all".

Open Scope string_scope.
Open Scope Z_scope.
Open Scope list_scope.

(** ** JavaScript numbers *)

Module Js.

(** A JavaScript number: not-a-number, an infinity, or a finite value
    kept as the exact decimal [m * 10 ^ e].  The constructor [Dec] is used
    in normal form only ([m] not a multiple of ten, and [e = 0] when
    [m = 0]), so that equal numbers are equal terms.  The engine's
    rounding to binary64 is the identity, up to this reading, on decimals
    of at most fifteen significant digits within the range of a double;
    the two zeros are identified. *)
Inductive number : Type :=
  | NaN
  | Infinity (negative : bool)
  | Dec (m : Z) (e : Z).

Definition isNaN (n : number) : bool :=
  match n with NaN => true | _ => false end.

Fixpoint strip_tens (fuel : nat) (m e : Z) : Z * Z :=
  match fuel with
  | O => (m, e)
  | S fuel' =>
      if m =? 0 then (0, 0)
      else if m mod 10 =? 0 then strip_tens fuel' (m / 10) (e + 1)
      else (m, e)
  end.

Definition mk_dec (digits : nat) (m e : Z) : number :=
  let '(m', e') := strip_tens (S digits) m e in Dec m' e'.

Definition of_Z (z : Z) : number :=
  mk_dec (Z.to_nat (Z.log2 (Z.abs z))) z 0.

(** *** [Number(string)]: StringToNumber *)

Definition code (c : ascii) : Z := Z.of_N (N_of_ascii c).

Definition is_digit (c : ascii) : bool := (48 <=? code c) && (code c <=? 57).

(** Value of a digit in a radix up to sixteen; [None] when [c] is no digit
    of that radix. *)
Definition digit_in (radix : Z) (c : ascii) : option Z :=
  let n := code c in
  let v := if (48 <=? n) && (n <=? 57) then n - 48
           else if (97 <=? n) && (n <=? 102) then n - 87
           else if (65 <=? n) && (n <=? 70) then n - 55
           else 16 in
  if v <? radix then Some v else None.

(** White space and line terminators of the ASCII range (TAB, LF, VT, FF,
    CR, SP). *)
Definition is_space (c : ascii) : bool :=
  let n := code c in ((9 <=? n) && (n <=? 13)) || (n =? 32).

Fixpoint trim_start (l : list ascii) : list ascii :=
  match l with
  | c :: r => if is_space c then trim_start r else l
  | [] => []
  end.

Definition trim (l : list ascii) : list ascii :=
  rev (trim_start (rev (trim_start l))).

Fixpoint span_digits (l : list ascii) : list ascii * list ascii :=
  match l with
  | c :: r =>
      if is_digit c then let '(ds, rest) := span_digits r in (c :: ds, rest)
      else ([], l)
  | [] => ([], [])
  end.

Fixpoint radix_value (radix : Z) (acc : Z) (l : list ascii) : option Z :=
  match l with
  | [] => Some acc
  | c :: r =>
      match digit_in radix c with
      | Some v => radix_value radix (radix * acc + v) r
      | None => None
      end
  end.

Definition digits_value (ds : list ascii) : Z :=
  fold_left (fun acc c => 10 * acc + (code c - 48)) ds 0.

(** ExponentPart, or nothing, up to the end of the text. *)
Definition parse_exponent (l : list ascii) : option Z :=
  match l with
  | [] => Some 0
  | c :: r =>
      if (code c =? 101) || (code c =? 69) then
        let '(sg, r') :=
          match r with
          | s :: r' =>
              if code s =? 43 then (1, r')
              else if code s =? 45 then (-1, r')
              else (1, r)
          | [] => (1, r)
          end in
        match span_digits r' with
        | (d :: ds, []) => Some (sg * digits_value (d :: ds))
        | _ => None
        end
      else None
  end.

(** StrUnsignedDecimalLiteral without [Infinity]: mantissa digits and
    decimal exponent. *)
Definition parse_unsigned_decimal (l : list ascii) : option (nat * Z * Z) :=
  let '(ip, r1) := span_digits l in
  let '(fp, r2) :=
    match r1 with
    | c :: r => if code c =? 46 then span_digits r else ([], r1)
    | [] => ([], r1)
    end in
  match ip ++ fp with
  | [] => None
  | ds =>
      match parse_exponent r2 with
      | Some x => Some (length ds, digits_value ds, x - Z.of_nat (length fp))
      | None => None
      end
  end.

Definition parse_signed (sg : Z) (l : list ascii) : number :=
  if String.eqb (string_of_list_ascii l) "Infinity" then Infinity (sg <? 0)
  else match parse_unsigned_decimal l with
       | Some (k, m, e) => mk_dec k (sg * m) e
       | None => NaN
       end.

Definition parse_radix (radix : Z) (l : list ascii) : number :=
  match l with
  | [] => NaN
  | _ => match radix_value radix 0 l with
         | Some v => of_Z v
         | None => NaN
         end
  end.

Definition StringToNumber (l : list ascii) : number :=
  match trim l with
  | [] => Dec 0 0
  | c :: r =>
      if code c =? 43 then parse_signed 1 r
      else if code c =? 45 then parse_signed (-1) r
      else
        match r with
        | x :: r' =>
            if code c =? 48 then
              if (code x =? 120) || (code x =? 88) then parse_radix 16 r'
              else if (code x =? 111) || (code x =? 79) then parse_radix 8 r'
              else if (code x =? 98) || (code x =? 66) then parse_radix 2 r'
              else parse_signed 1 (c :: r)
            else parse_signed 1 (c :: r)
        | [] => parse_signed 1 (c :: r)
        end
  end.

(** [Number(val)] at a string. *)
Definition Number (val : string) : number :=
  StringToNumber (list_ascii_of_string val).

(** *** [String(val)] at a number: Number::toString, radix ten *)

Definition digits_of (n : Z) : string :=
  NilZero.string_of_uint (N.to_uint (Z.to_N n)).

Fixpoint zeros (n : nat) : string :=
  match n with O => "" | S n' => String "0" (zeros n') end.

Definition take_str (n : nat) (s : string) : string := substring 0 n s.
Definition drop_str (n : nat) (s : string) : string :=
  substring n (String.length s - n) s.

Definition String (val : number) : string :=
  match val with
  | NaN => "NaN"
  | Infinity negative => if negative then "-Infinity" else "Infinity"
  | Dec m e =>
      if m =? 0 then "0"
      else
        let ds := digits_of (Z.abs m) in
        let k := Z.of_nat (String.length ds) in
        let n := k + e in
        let body :=
          if (k <=? n) && (n <=? 21) then ds +:+ zeros (Z.to_nat (n - k))
          else if (0 <? n) && (n <=? 21) then
            take_str (Z.to_nat n) ds +:+ "." +:+ drop_str (Z.to_nat n) ds
          else if (-6 <? n) && (n <=? 0) then
            "0." +:+ zeros (Z.to_nat (- n)) +:+ ds
          else
            let x := n - 1 in
            let sg := if x <? 0 then "-" else "+" in
            let mant := if k =? 1 then ds
                        else take_str 1 ds +:+ "." +:+ drop_str 1 ds in
            mant +:+ "e" +:+ sg +:+ digits_of (Z.abs x) in
        if m <? 0 then "-" +:+ body else body
  end.

End Js.

(** ** JavaScript dates *)

Module JsDate.

(** A [Date] object is its time value: milliseconds since the epoch, or
    [None] for the NaN time value of an invalid date. *)
Inductive date : Type := Date (time : option Z).

Definition getTime (d : date) : option Z := let 'Date t := d in t.

(** [isNaN(d.getTime())] *)
Definition is_invalid (d : date) : bool :=
  match getTime d with None => true | Some _ => false end.

(** Offset of the host's local time from UTC, in milliseconds; the server
    is taken to run in UTC. *)
Definition LocalTZA : Z := 0.

Definition msPerDay : Z := 86400000.

(** Day number of a civil date (proleptic Gregorian), day 0 being
    1970-01-01; a day past the end of its month runs into the next one. *)
Definition MakeDay (year month day : Z) : Z :=
  let y := if month <=? 2 then year - 1 else year in
  let era := y / 400 in
  let yoe := y - era * 400 in
  let mp := if month <=? 2 then month + 9 else month - 3 in
  let doy := (153 * mp + 2) / 5 + day - 1 in
  let doe := yoe * 365 + yoe / 4 - yoe / 100 + doy in
  era * 146097 + doe - 719468.

Definition MakeTime (hour min sec ms : Z) : Z :=
  hour * 3600000 + min * 60000 + sec * 1000 + ms.

Definition TimeClip (t : option Z) : option Z :=
  match t with
  | Some v => if Z.abs v <=? 8640000000000000 then Some v else None
  | None => None
  end.

(** Exactly [n] decimal digits at the head of the text. *)
Fixpoint digits (n : nat) (acc : Z) (l : list ascii)
  : option (Z * list ascii) :=
  match n with
  | O => Some (acc, l)
  | S n' =>
      match l with
      | c :: r =>
          if Js.is_digit c then digits n' (10 * acc + (Js.code c - 48)) r
          else None
      | [] => None
      end
  end.

(** A separator character followed by [n] digits, when the separator is at
    the head of the text. *)
Definition sep_digits (sep : Z) (n : nat) (l : list ascii)
  : option (option (Z * list ascii)) :=
  match l with
  | c :: r => if Js.code c =? sep then Some (digits n 0 r) else None
  | [] => None
  end.

Definition parse_year (l : list ascii) : option (Z * list ascii) :=
  match l with
  | c :: r =>
      if Js.code c =? 43 then digits 6 0 r
      else if Js.code c =? 45 then
        match digits 6 0 r with
        | Some (y, rest) => if y =? 0 then None else Some (- y, rest)
        | None => None
        end
      else digits 4 0 l
  | [] => None
  end.

(** UTC offset designator at the end of the text, in milliseconds east of
    UTC; [Some None] when the text has none. *)
Definition parse_offset (l : list ascii) : option (option Z) :=
  match l with
  | [] => Some None
  | c :: r =>
      if Js.code c =? 90 then
        match r with [] => Some (Some 0) | _ => None end
      else if (Js.code c =? 43) || (Js.code c =? 45) then
        match digits 2 0 r with
        | Some (h, r1) =>
            match sep_digits 58 2 r1 with
            | Some (Some (m, [])) =>
                if (h <=? 23) && (m <=? 59) then
                  let off := MakeTime h m 0 0 in
                  Some (Some (if Js.code c =? 45 then - off else off))
                else None
            | _ => None
            end
        | None => None
        end
      else None
  end.

(** [THH:mm], [THH:mm:ss] or [THH:mm:ss.sss] with its offset: the time
    within the day and the offset. *)
Definition parse_time (l : list ascii) : option (Z * option Z) :=
  match digits 2 0 l with
  | Some (h, r1) =>
      match sep_digits 58 2 r1 with
      | Some (Some (mi, r2)) =>
          let '(s, r3) :=
            match sep_digits 58 2 r2 with
            | Some (Some (s, r)) => (Some s, r)
            | Some None => (None, [])
            | None => (Some 0, r2)
            end in
          let '(ms, r4) :=
            match sep_digits 46 3 r3 with
            | Some (Some (ms, r)) => (Some ms, r)
            | Some None => (None, [])
            | None => (Some 0, r3)
            end in
          match s, ms, parse_offset r4 with
          | Some s, Some ms, Some off =>
              if (h <=? 24) && (mi <=? 59) && (s <=? 59)
                 && ((h <? 24) || ((mi =? 0) && (s =? 0) && (ms =? 0)))
              then Some (MakeTime h mi s ms, off)
              else None
          | _, _, _ => None
          end
      | _ => None
      end
  | None => None
  end.

(** [Date.parse] on the Date Time String Format of the language standard
    ([YYYY], [YYYY-MM], [YYYY-MM-DD], each optionally followed by [T] and
    a time); a text outside that format has no time value. *)
Definition parse (s : string) : option Z :=
  match parse_year (list_ascii_of_string s) with
  | Some (y, r0) =>
      let '(mo, r1) :=
        match sep_digits 45 2 r0 with
        | Some (Some (m, r)) => (Some m, r)
        | Some None => (None, [])
        | None => (Some 1, r0)
        end in
      let '(d, r2) :=
        match sep_digits 45 2 r1 with
        | Some (Some (d, r)) => (Some d, r)
        | Some None => (None, [])
        | None => (Some 1, r1)
        end in
      match mo, d with
      | Some mo, Some d =>
          if (1 <=? mo) && (mo <=? 12) && (1 <=? d) && (d <=? 31) then
            let day := MakeDay y mo d * msPerDay in
            match r2 with
            | [] => Some day
            | c :: r =>
                if Js.code c =? 84 then
                  match parse_time r with
                  | Some (t, Some off) => Some (day + t - off)
                  | Some (t, None) => Some (day + t - LocalTZA)
                  | None => None
                  end
                else None
            end
          else None
      | _, _ => None
      end
  | None => None
  end.

(** [new Date(val)] at a string. *)
Definition new_Date (val : string) : date := Date (TimeClip (parse val)).

End JsDate.

(** ** JavaScript values *)

Inductive value : Type :=
  | VUndefined
  | VNull
  | VBool (b : bool)
  | VNum (n : Js.number)
  | VStr (s : string)
  | VDate (d : JsDate.date)
  | VArray (items : list value)
  | VObject (fields : gmap string value).

(** Property read [o[k]]: a key the object lacks reads as [undefined]. *)
Definition get (o : gmap string value) (k : string) : value :=
  default VUndefined (o !! k).

(** [k in o] *)
Definition has_key (o : gmap string value) (k : string) : bool :=
  match o !! k with Some _ => true | None => false end.

(** ** The zod schema language *)

Module Zod.

(** [ZodParsedType], as far as [value] has inhabitants for it. *)
Inductive parsed_type : Type :=
  | t_string | t_nan | t_number | t_boolean | t_date
  | t_undefined | t_null | t_array | t_object.

Definition getParsedType (data : value) : parsed_type :=
  match data with
  | VUndefined => t_undefined
  | VNull => t_null
  | VBool _ => t_boolean
  | VNum n => if Js.isNaN n then t_nan else t_number
  | VStr _ => t_string
  | VDate _ => t_date
  | VArray _ => t_array
  | VObject _ => t_object
  end.

Inductive path_item : Type :=
  | Key (k : string)
  | Index (i : nat).

Definition path : Type := list path_item.

(** [ZodIssue]: the codes the schemas of this file can raise.  An
    [invalid_type] issue whose [received] is [t_undefined] is the one zod
    words "Required". *)
Inductive issue : Type :=
  | invalid_type (at_path : path) (expected received : parsed_type)
  | invalid_date (at_path : path)
  | invalid_union (at_path : path) (unionErrors : list (list issue)).

Definition issue_path (i : issue) : path :=
  match i with
  | invalid_type p _ _ => p
  | invalid_date p => p
  | invalid_union p _ => p
  end.

(** [SafeParseReturnType]: the parsed data, or the issues of a
    [ZodError]. *)
Inductive result : Type :=
  | OK (data : value)
  | INVALID (issues : list issue).

(** The primitive schemas, each with the type of what it lets through. *)
Inductive prim : Type := PString | PNumber | PBoolean | PDate.

Definition prim_out (p : prim) : Type :=
  match p with
  | PString => string
  | PNumber => Js.number
  | PBoolean => bool
  | PDate => JsDate.date
  end.

Definition prim_value (p : prim) : prim_out p -> value :=
  match p with
  | PString => VStr
  | PNumber => VNum
  | PBoolean => VBool
  | PDate => VDate
  end.

Definition prim_type (p : prim) : parsed_type :=
  match p with
  | PString => t_string
  | PNumber => t_number
  | PBoolean => t_boolean
  | PDate => t_date
  end.

(** [ZodString._parse], [ZodNumber._parse], [ZodBoolean._parse] and
    [ZodDate._parse], without checks: the parsed type must be the
    schema's, and a date must have a time value. *)
Definition prim_parse (p : prim) (at_path : path) (data : value)
  : prim_out p + list issue :=
  let mismatch (A : Type) : A + list issue :=
    inr [invalid_type at_path (prim_type p) (getParsedType data)] in
  match p return prim_out p + list issue with
  | PString => match data with VStr s => inl s | _ => mismatch _ end
  | PNumber =>
      match data with
      | VNum n => if Js.isNaN n then mismatch _ else inl n
      | _ => mismatch _
      end
  | PBoolean => match data with VBool b => inl b | _ => mismatch _ end
  | PDate =>
      match data with
      | VDate d =>
          if JsDate.is_invalid d then inr [invalid_date at_path] else inl d
      | _ => mismatch _
      end
  end.

Inductive schema : Type :=
  | ZPrim (p : prim)
  | ZAny
  | ZTransform (p : prim) (f : prim_out p -> value)
  | ZArray (element : schema)
  | ZOptional (inner : schema)
  | ZNullable (inner : schema)
  | ZUnion (options : list schema)
  | ZObject (shape : list (string * schema)).

Definition issues_of (r : result) : list issue :=
  match r with OK _ => [] | INVALID issues => issues end.

Definition isValid (r : result) : bool :=
  match r with OK _ => true | INVALID _ => false end.

Definition value_of (r : result) : value :=
  match r with OK data => data | INVALID _ => VUndefined end.

(** [ParseStatus.mergeArray]: the parsed items, or every issue raised. *)
Definition mergeArray (results : list result) : result :=
  if forallb isValid results then OK (VArray (map value_of results))
  else INVALID (concat (map issues_of results)).

(** [ParseStatus.mergeObjectSync]: a key enters the final object when its
    parsed value is not [undefined] or the key was in the input. *)
Definition mergeObjectSync (pairs : list (string * result * bool)) : result :=
  if forallb (fun '(_, r, _) => isValid r) pairs then
    OK (VObject
          (fold_left
             (fun (finalObject : gmap string value)
                  '((key, r, alwaysSet) : string * result * bool) =>
                match value_of r with
                | VUndefined =>
                    if alwaysSet then <[key := VUndefined]> finalObject
                    else finalObject
                | v => <[key := v]> finalObject
                end)
             pairs (∅ : gmap string value)))
  else INVALID (concat (map (fun '(_, r, _) => issues_of r) pairs)).

(** The [_parse] method of each schema class.  An object schema is in
    zod's default mode: keys outside its shape are stripped. *)
Fixpoint parse (s : schema) (at_path : path) (data : value) {struct s}
  : result :=
  match s with
  | ZPrim p =>
      match prim_parse p at_path data with
      | inl x => OK (prim_value p x)
      | inr issues => INVALID issues
      end
  | ZAny => OK data
  | ZTransform p f =>
      match prim_parse p at_path data with
      | inl x => OK (f x)
      | inr issues => INVALID issues
      end
  | ZArray element =>
      match data with
      | VArray items =>
          mergeArray
            (imap (fun i item => parse element (at_path ++ [Index i]) item)
                  items)
      | _ => INVALID [invalid_type at_path t_array (getParsedType data)]
      end
  | ZOptional inner =>
      match data with
      | VUndefined => OK VUndefined
      | _ => parse inner at_path data
      end
  | ZNullable inner =>
      match data with
      | VNull => OK VNull
      | _ => parse inner at_path data
      end
  | ZUnion options =>
      (fix try (options : list schema) (unionErrors : list (list issue)) :=
         match options with
         | [] => INVALID [invalid_union at_path unionErrors]
         | option :: rest =>
             match parse option at_path data with
             | OK v => OK v
             | INVALID issues => try rest (unionErrors ++ [issues])
             end
         end) options []
  | ZObject shape =>
      match data with
      | VObject o =>
          mergeObjectSync
            ((fix fields (shape : list (string * schema)) :=
                match shape with
                | [] => []
                | (key, keyValidator) :: rest =>
                    (key,
                     parse keyValidator (at_path ++ [Key key]) (get o key),
                     has_key o key) :: fields rest
                end) shape)
      | _ => INVALID [invalid_type at_path t_object (getParsedType data)]
      end
  end.

(** [schema.safeParse(data)] *)
Definition safeParse (s : schema) (data : value) : result := parse s [] data.

(** [ZodObject.omit(mask)], the mask given by its keys. *)
Definition omit (mask : list string) (s : schema) : schema :=
  match s with
  | ZObject shape =>
      ZObject (filter (fun entry => negb (bool_decide (entry.1 ∈ mask))) shape)
  | _ => s
  end.

End Zod.

(** ** drizzle-orm column builders and drizzle-zod *)

Module Drizzle.

(** [column.dataType]; an array column carries its base column's. *)
Inductive data_type : Type :=
  | dt_number
  | dt_string
  | dt_boolean
  | dt_date
  | dt_array (base : data_type).

Inductive default_value : Type :=
  | Literal (v : value)
  | SqlNow.

Record column : Type := Column {
  name : string;
  dataType : data_type;
  notNull : bool;
  hasDefault : bool;
  default : option default_value;
  isUnique : bool;
  primary : bool;
}.

Definition builder (n : string) (t : data_type) : column :=
  {| name := n; dataType := t; notNull := false; hasDefault := false;
     default := None; isUnique := false; primary := false |}.

Definition text (n : string) : column := builder n dt_string.
Definition integer (n : string) : column := builder n dt_number.
Definition numeric (n : string) : column := builder n dt_string.
Definition boolean (n : string) : column := builder n dt_boolean.
Definition timestamp (n : string) : column := builder n dt_date.

(** A serial column is not null and has a default from its creation. *)
Definition serial (n : string) : column :=
  {| name := n; dataType := dt_number; notNull := true; hasDefault := true;
     default := None; isUnique := false; primary := false |}.

Definition set_notNull (c : column) : column :=
  {| name := name c; dataType := dataType c; notNull := true;
     hasDefault := hasDefault c; default := default c;
     isUnique := isUnique c; primary := primary c |}.

Definition set_unique (c : column) : column :=
  {| name := name c; dataType := dataType c; notNull := notNull c;
     hasDefault := hasDefault c; default := default c;
     isUnique := true; primary := primary c |}.

Definition set_primaryKey (c : column) : column :=
  {| name := name c; dataType := dataType c; notNull := true;
     hasDefault := hasDefault c; default := default c;
     isUnique := isUnique c; primary := true |}.

Definition set_default (d : default_value) (c : column) : column :=
  {| name := name c; dataType := dataType c; notNull := notNull c;
     hasDefault := true; default := Some d;
     isUnique := isUnique c; primary := primary c |}.

Definition set_array (c : column) : column :=
  {| name := name c; dataType := dt_array (dataType c); notNull := notNull c;
     hasDefault := hasDefault c; default := default c;
     isUnique := isUnique c; primary := primary c |}.

Record table : Type := pgTable {
  tableName : string;
  columns : list (string * column);
}.

(** *** drizzle-zod *)

Import Zod.

(** [mapColumnToSchema], by the column's data type. *)
Fixpoint mapDataType (t : data_type) : schema :=
  match t with
  | dt_number => ZPrim PNumber
  | dt_string => ZPrim PString
  | dt_boolean => ZPrim PBoolean
  | dt_date => ZPrim PDate
  | dt_array base => ZArray (mapDataType base)
  end.

Definition mapColumnToSchema (c : column) : schema := mapDataType (dataType c).

Definition entries : Type := list (string * schema).

(** [entries[key]]; the keys read in this file are columns of the table,
    which the type of the refine argument guarantees. *)
Fixpoint entry (es : entries) (key : string) : schema :=
  match es with
  | [] => ZAny
  | (k, s) :: rest => if String.eqb k key then s else entry rest key
  end.

(** [entries[key] = s]: in place when the key is there, at the end
    otherwise. *)
Fixpoint set_entry (es : entries) (key : string) (s : schema) : entries :=
  match es with
  | [] => [(key, s)]
  | (k, s0) :: rest =>
      if String.eqb k key then (k, s) :: rest
      else (k, s0) :: set_entry rest key s
  end.

(** [Object.assign(target, source)] *)
Definition assign (target source : entries) : entries :=
  fold_left (fun es '(k, s) => set_entry es k s) source target.

(** A refinement of a column: a schema, or a function of the schemas
    derived from the columns. *)
Inductive refinement : Type :=
  | Refined (s : schema)
  | RefineWith (f : entries -> schema).

(** [createInsertSchema(table, refine)]: the schema of each column, the
    refinements laid over them, then every nullable column made nullable
    and optional and every other column with a default made optional. *)
Definition createInsertSchema (t : table) (refine : list (string * refinement))
  : schema :=
  let columnEntries := columns t in
  let schemaEntries : entries :=
    map (fun '(n, c) => (n, mapColumnToSchema c)) columnEntries in
  let refined : entries :=
    map (fun '(n, refineColumn) =>
           (n, match refineColumn with
               | RefineWith f => f schemaEntries
               | Refined s => s
               end)) refine in
  let schemaEntries := assign schemaEntries refined in
  ZObject
    (fold_left
       (fun (es : entries) '((n, c) : string * column) =>
          if negb (notNull c) then
            set_entry es n (ZOptional (ZNullable (entry es n)))
          else if hasDefault c then set_entry es n (ZOptional (entry es n))
          else es)
       columnEntries schemaEntries).

End Drizzle.

(** ** shared/schema.ts *)

Import Zod Drizzle.

Notation "c |> f" := (f c) (at level 45, left associativity, only parsing).

Definition users : table := pgTable "users" [
  ("id", serial "id" |> set_primaryKey);
  ("username", text "username" |> set_notNull |> set_unique);
  ("password", text "password" |> set_notNull);
  ("email", text "email" |> set_notNull |> set_unique);
  ("fullName", text "full_name" |> set_notNull);
  ("savedProperties",
    integer "saved_properties" |> set_array |> set_notNull
      |> set_default (Literal (VArray [])));
  ("createdAt", timestamp "created_at" |> set_default SqlNow)
].

Definition properties : table := pgTable "properties" [
  ("id", serial "id" |> set_primaryKey);
  ("title", text "title" |> set_notNull);
  ("description", text "description" |> set_notNull);
  ("price", numeric "price" |> set_notNull);
  ("address", text "address" |> set_notNull);
  ("city", text "city" |> set_notNull);
  ("state", text "state" |> set_notNull);
  ("zipCode", text "zip_code" |> set_notNull);
  ("lat", numeric "lat" |> set_notNull);
  ("lng", numeric "lng" |> set_notNull);
  ("bedrooms", integer "bedrooms" |> set_notNull);
  ("bathrooms", integer "bathrooms" |> set_notNull);
  ("squareFeet", integer "square_feet" |> set_notNull);
  ("yearBuilt", integer "year_built");
  ("propertyType", text "property_type" |> set_notNull);
  ("listingType", text "listing_type" |> set_notNull);
  ("imageUrl", text "image_url" |> set_notNull);
  ("userId", integer "user_id" |> set_notNull);
  ("featured", boolean "featured" |> set_default (Literal (VBool false)));
  ("status", text "status" |> set_default (Literal (VStr "available")));
  ("avgRating", numeric "avg_rating" |> set_default (Literal (VStr "0")));
  ("ratingCount",
    integer "rating_count" |> set_default (Literal (VNum (Js.Dec 0 0))));
  ("createdAt", timestamp "created_at" |> set_default SqlNow)
].

Definition appointments : table := pgTable "appointments" [
  ("id", serial "id" |> set_primaryKey);
  ("propertyId", integer "property_id" |> set_notNull);
  ("userId", integer "user_id" |> set_notNull);
  ("date", timestamp "date" |> set_notNull);
  ("message", text "message");
  ("status", text "status" |> set_default (Literal (VStr "pending")));
  ("createdAt", timestamp "created_at" |> set_default SqlNow)
].

Definition agents : table := pgTable "agents" [
  ("id", serial "id" |> set_primaryKey);
  ("name", text "name" |> set_notNull);
  ("specialization", text "specialization" |> set_notNull);
  ("rating", numeric "rating" |> set_notNull);
  ("propertiesSold", integer "properties_sold" |> set_notNull);
  ("imageUrl", text "image_url" |> set_notNull)
].

(** *** Insert schemas *)

Definition insertUserSchema : schema :=
  createInsertSchema users [
    ("username", RefineWith (fun schema => entry schema "username"));
    ("password", RefineWith (fun schema => entry schema "password"));
    ("email", RefineWith (fun schema => entry schema "email"));
    ("fullName", RefineWith (fun schema => entry schema "fullName"))
  ].

(** [val => String(val)] *)
Definition number_to_string (val : Js.number) : value := VStr (Js.String val).

(** [val => Number(val)] *)
Definition string_to_number (val : string) : value := VNum (Js.Number val).

(** [val => val ? Number(val) : undefined]: the empty string is the one
    falsy string. *)
Definition string_to_year (val : string) : value :=
  if negb (String.eqb val "") then VNum (Js.Number val) else VUndefined.

(** [val => new Date(val)] *)
Definition string_to_date (val : string) : value :=
  VDate (JsDate.new_Date val).

Definition z_string : schema := ZPrim PString.
Definition z_number : schema := ZPrim PNumber.
Definition z_date : schema := ZPrim PDate.

Definition insertPropertySchema : schema :=
  createInsertSchema properties [
    ("price", Refined (ZUnion [
       z_string;
       ZTransform PNumber number_to_string ]));
    ("lat", Refined (ZUnion [
       z_string;
       ZTransform PNumber number_to_string ]));
    ("lng", Refined (ZUnion [
       z_string;
       ZTransform PNumber number_to_string ]));
    ("bedrooms", Refined (ZUnion [
       z_number;
       ZTransform PString string_to_number ]));
    ("bathrooms", Refined (ZUnion [
       z_number;
       ZTransform PString string_to_number ]));
    ("squareFeet", Refined (ZUnion [
       z_number;
       ZTransform PString string_to_number ]));
    ("yearBuilt", Refined (ZUnion [
       ZOptional z_number;
       ZOptional (ZTransform PString string_to_year) ]))
  ] |> omit ["id"; "createdAt"].

Definition insertAppointmentSchema : schema :=
  createInsertSchema appointments [
    ("date", Refined (ZUnion [z_date; ZTransform PString string_to_date]))
  ] |> omit ["id"; "createdAt"].

Definition insertAgentSchema : schema :=
  createInsertSchema agents [] |> omit ["id"].

Definition propertyFilterSchema : schema := ZObject [
  ("city", ZOptional z_string);
  ("minPrice", ZOptional z_string);
  ("maxPrice", ZOptional z_string);
  ("minBeds", ZOptional z_string);
  ("minBaths", ZOptional z_string);
  ("propertyType", ZOptional z_string);
  ("listingType", ZOptional z_string);
  ("minSqft", ZOptional z_string);
  ("maxSqft", ZOptional z_string);
  ("minYear", ZOptional z_string);
  ("maxYear", ZOptional z_string)
].

(** ** The entities and their validators *)

Inductive entity : Type := User | Property | Appointment.

Definition table_of (e : entity) : table :=
  match e with
  | User => users
  | Property => properties
  | Appointment => appointments
  end.

Definition insertSchema (e : entity) : schema :=
  match e with
  | User => insertUserSchema
  | Property => insertPropertySchema
  | Appointment => insertAppointmentSchema
  end.

(** The keys the database assigns. *)
Definition server_assigned : list string := ["id"; "createdAt"].

(** What validation of the object [o] by [s] makes of its field [f]: on
    success the validated object reads [v] at [f]; on failure no issue is
    raised at [f]. *)
Definition validated (s : schema) (o : gmap string value) (f : string)
  (v : value) : Prop :=
  match safeParse s (VObject o) with
  | OK (VObject r) => get r f = v
  | OK _ => False
  | INVALID issues => forall i, i ∈ issues -> issue_path i <> [Key f]
  end.

(** An issue that reports the field [f] as missing: zod's "Required" at
    the field, or, where the field's schema is a union, the union issue at
    the field all of whose branches report it so. *)
Inductive missing_field (f : string) : issue -> Prop :=
  | missing_required expected :
      missing_field f (invalid_type [Key f] expected t_undefined)
  | missing_in_union unionErrors :
      unionErrors <> [] ->
      Forall (fun branch =>
                branch <> [] /\ Forall (missing_field f) branch) unionErrors ->
      missing_field f (invalid_union [Key f] unionErrors).

(** The keys of a table's insert schema that a payload cannot leave out. *)
Definition required_keys (t : table) : list string :=
  (filter (fun '(_, c) => notNull c && negb (hasDefault c)) (columns t)).*1.

(** *** Values in canonical shape *)

(** A value of the kind a column's data type stores: a number is a real
    number and a date has a time value. *)
Fixpoint has_type (t : data_type) (v : value) {struct t} : bool :=
  match t, v with
  | dt_number, VNum n => negb (Js.isNaN n)
  | dt_string, VStr _ => true
  | dt_boolean, VBool _ => true
  | dt_date, VDate d => negb (JsDate.is_invalid d)
  | dt_array base, VArray items => forallb (has_type base) items
  | _, _ => false
  end.

Definition field_canonical (c : column) (v : option value) : bool :=
  match v with
  | None => negb (notNull c) || hasDefault c
  | Some VNull => negb (notNull c)
  | Some v => has_type (dataType c) v
  end.

(** An insert value in canonical shape for a table: no server-assigned
    key, every other column absent (when it may be), null (when it may be)
    or of the column's kind, and no key that is not a column. *)
Definition is_canonical (t : table) (o : gmap string value) : bool :=
  forallb
    (fun '(k, c) =>
       if bool_decide (k ∈ server_assigned) then negb (has_key o k)
       else field_canonical c (o !! k))
    (columns t)
  && forallb (fun k => bool_decide (k ∈ (columns t).*1)) (map_to_list o).*1.

(** ** Row creation *)

Module Storage.

(** Modelled from the spec: the persistence layer's row creation (the
    server's storage code is not part of [shared/schema.ts]).  A column
    the inserted values leave out takes its declared default; [id] is the
    next serial number and [defaultNow] the time of the insert; a column
    without default is null. *)
Definition column_value (next_id : Z) (now : JsDate.date) (c : column)
  (given : value) : value :=
  match given with
  | VUndefined =>
      match default c with
      | Some (Literal v) => v
      | Some SqlNow => VDate now
      | None => if hasDefault c then VNum (Js.of_Z next_id) else VNull
      end
  | v => v
  end.

(** Modelled from the spec: the created row, one entry per column. *)
Definition create (t : table) (next_id : Z) (now : JsDate.date)
  (values : gmap string value) : gmap string value :=
  list_to_map
    ((fun '(k, c) => (k, column_value next_id now c (get values k)))
       <$> columns t).

End Storage.

(** ** Reading [parse] *)

(** Induction on schemas that reaches the options of a union and the
    validators of an object's shape. *)
Section schema_induction.

Variable P : schema -> Prop.
Hypothesis Hprim : forall p, P (ZPrim p).
Hypothesis Hany : P ZAny.
Hypothesis Htransform : forall p f, P (ZTransform p f).
Hypothesis Harray : forall element, P element -> P (ZArray element).
Hypothesis Hoptional : forall inner, P inner -> P (ZOptional inner).
Hypothesis Hnullable : forall inner, P inner -> P (ZNullable inner).
Hypothesis Hunion : forall options, Forall P options -> P (ZUnion options).
Hypothesis Hobject :
  forall shape, Forall (fun entry => P entry.2) shape -> P (ZObject shape).

Fixpoint schema_nested_ind (s : schema) : P s :=
  match s with
  | ZPrim p => Hprim p
  | ZAny => Hany
  | ZTransform p f => Htransform p f
  | ZArray element => Harray element (schema_nested_ind element)
  | ZOptional inner => Hoptional inner (schema_nested_ind inner)
  | ZNullable inner => Hnullable inner (schema_nested_ind inner)
  | ZUnion options =>
      Hunion options
        ((fix all (l : list schema) : Forall P l :=
            match l with
            | [] => List.Forall_nil P
            | o :: rest =>
                List.Forall_cons P o rest (schema_nested_ind o) (all rest)
            end) options)
  | ZObject shape =>
      Hobject shape
        ((fix all (l : list (string * schema))
            : Forall (fun entry => P entry.2) l :=
            match l with
            | [] => List.Forall_nil _
            | (k, sk) :: rest =>
                List.Forall_cons (fun entry => P entry.2) (k, sk) rest
                  (schema_nested_ind sk) (all rest)
            end) shape)
  end.

End schema_induction.

(** The pairs [ZodObject._parse] hands to [mergeObjectSync]. *)
Definition object_pairs (shape : list (string * schema)) (at_path : path)
  (o : gmap string value) : list (string * result * bool) :=
  (fun '(key, keyValidator) =>
     (key, parse keyValidator (at_path ++ [Key key]) (get o key),
      has_key o key)) <$> shape.

(** What a pair contributes to the final object. *)
Definition pair_entry (r : result) (alwaysSet : bool) : option value :=
  match value_of r with
  | VUndefined => if alwaysSet then Some VUndefined else None
  | v => Some v
  end.

Definition finalObject (pairs : list (string * result * bool))
  (init : gmap string value) : gmap string value :=
  fold_left
    (fun (acc : gmap string value)
         '((key, r, alwaysSet) : string * result * bool) =>
       match pair_entry r alwaysSet with
       | Some v => <[key := v]> acc
       | None => acc
       end) pairs init.

(** The first option that parses, or the union issue with every option's
    issues: what [ZodUnion._parse] makes of its options' results. *)
Fixpoint first_valid (at_path : path) (results : list result)
  (unionErrors : list (list issue)) : result :=
  match results with
  | [] => INVALID [invalid_union at_path unionErrors]
  | OK v :: _ => OK v
  | INVALID issues :: rest => first_valid at_path rest (unionErrors ++ [issues])
  end.

Definition shape_of (s : schema) : list (string * schema) :=
  match s with ZObject shape => shape | _ => [] end.

(** ** Field groups and sample payloads *)

Definition num (z : Z) : value := VNum (Js.of_Z z).

Definition sample_property : gmap string value :=
  list_to_map [
    ("title", VStr "Sunny loft");
    ("description", VStr "Two rooms near the park");
    ("price", VStr "250000.50");
    ("address", VStr "12 Elm Street");
    ("city", VStr "Austin");
    ("state", VStr "TX");
    ("zipCode", VStr "78701");
    ("lat", VStr "30.2672");
    ("lng", VStr "-97.7431");
    ("bedrooms", num 3);
    ("bathrooms", num 2);
    ("squareFeet", num 1200);
    ("propertyType", VStr "condo");
    ("listingType", VStr "buy");
    ("imageUrl", VStr "https://example.org/loft.jpg");
    ("userId", num 1) ].

Definition sample_appointment : gmap string value :=
  list_to_map [
    ("propertyId", num 4);
    ("userId", num 1);
    ("date", VDate (JsDate.Date (Some 1714557600000))) ].

Definition sample_user : gmap string value :=
  list_to_map [
    ("username", VStr "ada");
    ("password", VStr "secret");
    ("email", VStr "ada@example.org");
    ("fullName", VStr "Ada Lovelace") ].

Definition count_fields : list string := ["bedrooms"; "bathrooms"; "squareFeet"].

Definition three_bedrooms : gmap string value :=
  <["bedrooms" := VStr "three"]> sample_property.

Definition undated_appointment (date : value) : gmap string value :=
  <["date" := date]> sample_appointment.

Definition user_with_id : gmap string value :=
  <["id" := num 7]>
    (<["createdAt" := VDate (JsDate.Date (Some 0))]> sample_user).

Definition decimal_fields : list string := ["price"; "lat"; "lng"].

Definition filter_keys : list string :=
  ["city"; "minPrice"; "maxPrice"; "minBeds"; "minBaths"; "propertyType";
   "listingType"; "minSqft"; "maxSqft"; "minYear"; "maxYear"].

Definition filter_with_page : gmap string value :=
  {["city" := VStr "Austin"; "page" := VStr "2"]}.

Definition saved_user : gmap string value :=
  <["savedProperties" := VArray [num 4; num 9]]> sample_user.

Definition listed_property : gmap string value :=
  <["yearBuilt" := num 1998]>
    (<["featured" := VBool true]>
       (<["status" := VNull]> sample_property)).

(** ** The exported schemas together *)

Definition agent_keys : list string :=
  ["name"; "specialization"; "rating"; "propertiesSold"; "imageUrl"].

(** Each table with the insert schema derived from it. *)
Definition insert_schemas : list (table * schema) :=
  [(users, insertUserSchema);
   (properties, insertPropertySchema);
   (appointments, insertAppointmentSchema);
   (agents, insertAgentSchema)].

Definition exported_schemas : list schema :=
  [insertUserSchema; insertPropertySchema; insertAppointmentSchema;
   insertAgentSchema; propertyFilterSchema].

(** The issues of each validator of a shape on its key of [o], in the
    order of the shape. *)
Definition field_issues (shape : list (string * schema))
  (o : gmap string value) : list issue :=
  concat ((fun '(k, sk) => issues_of (parse sk [Key k] (get o k))) <$> shape).

(** The object [o] without the keys outside [keys]. *)
Definition restrict (keys : list string) (o : gmap string value)
  : gmap string value :=
  filter (fun kv => kv.1 ∈ keys) o.

(** The property fields whose string branch goes through [Number]. *)
Definition number_coerced_fields : list string :=
  ["bedrooms"; "bathrooms"; "squareFeet"; "yearBuilt"].

(** ** client/src/pages/Home.tsx *)

(** [Property], the row type inferred from the [properties] table. *)
Module Select.

Record Property : Type := {
  id : Js.number;
  title : string;
  description : string;
  price : string;
  address : string;
  city : string;
  state : string;
  zipCode : string;
  lat : string;
  lng : string;
  bedrooms : Js.number;
  bathrooms : Js.number;
  squareFeet : Js.number;
  yearBuilt : option Js.number;
  propertyType : string;
  listingType : string;
  imageUrl : string;
  userId : Js.number;
  featured : option bool;
  status : option string;
  avgRating : option string;
  ratingCount : option Js.number;
  createdAt : option JsDate.date;
}.

End Select.

Module Home.

(** [PropertyFilter], the type inferred from [propertyFilterSchema]; a key
    that is absent or [undefined] is [None]. *)
Record PropertyFilter : Type := {
  city : option string;
  minPrice : option string;
  maxPrice : option string;
  minBeds : option string;
  minBaths : option string;
  propertyType : option string;
  listingType : option string;
  minSqft : option string;
  maxSqft : option string;
  minYear : option string;
  maxYear : option string;
}.

(** [{}] *)
Definition no_filters : PropertyFilter :=
  {| city := None; minPrice := None; maxPrice := None; minBeds := None;
     minBaths := None; propertyType := None; listingType := None;
     minSqft := None; maxSqft := None; minYear := None; maxYear := None |}.

(** [{ ...filters, city: name }] *)
Definition with_city (filters : PropertyFilter) (name : string)
  : PropertyFilter :=
  {| city := Some name; minPrice := minPrice filters;
     maxPrice := maxPrice filters; minBeds := minBeds filters;
     minBaths := minBaths filters; propertyType := propertyType filters;
     listingType := listingType filters; minSqft := minSqft filters;
     maxSqft := maxSqft filters; minYear := minYear filters;
     maxYear := maxYear filters |}.

(** Truthiness of a [string | undefined]: only a non-empty string. *)
Definition truthy (v : option string) : bool :=
  match v with
  | Some s => negb (String.eqb s "")
  | None => false
  end.

(** [Object.values(filters)]; a key the object lacks stands as the falsy
    [None]. *)
Definition Object_values (f : PropertyFilter) : list (option string) :=
  [city f; minPrice f; maxPrice f; minBeds f; minBaths f; propertyType f;
   listingType f; minSqft f; maxSqft f; minYear f; maxYear f].

(** [a === b] on numbers: NaN equals nothing. *)
Definition strict_equal (a b : Js.number) : bool :=
  match a, b with
  | Js.Infinity x, Js.Infinity y => Bool.eqb x y
  | Js.Dec m e, Js.Dec m' e' => (m =? m') && (e =? e')
  | _, _ => false
  end.

(** The state of [HomePage]: the router's location and the three
    [useState] cells. *)
Record state : Type := {
  location : string;
  filters : PropertyFilter;
  selectedProperty : option Select.Property;
  appointmentModalOpen : bool;
}.

Definition initial (at_location : string) : state :=
  {| location := at_location; filters := no_filters;
     selectedProperty := None; appointmentModalOpen := false |}.

(** What a handler does, in the order it does it. *)
Inductive effect : Type :=
  | console_log (message : string) (data : PropertyFilter)
  | setFilters (f : PropertyFilter)
  | setLocation (to : string)
  | setSelectedProperty (p : option Select.Property)
  | setAppointmentModalOpen (open : bool).

Definition apply_effect (st : state) (e : effect) : state :=
  match e with
  | console_log _ _ => st
  | setFilters f =>
      {| location := location st; filters := f;
         selectedProperty := selectedProperty st;
         appointmentModalOpen := appointmentModalOpen st |}
  | setLocation to =>
      {| location := to; filters := filters st;
         selectedProperty := selectedProperty st;
         appointmentModalOpen := appointmentModalOpen st |}
  | setSelectedProperty p =>
      {| location := location st; filters := filters st;
         selectedProperty := p;
         appointmentModalOpen := appointmentModalOpen st |}
  | setAppointmentModalOpen open =>
      {| location := location st; filters := filters st;
         selectedProperty := selectedProperty st;
         appointmentModalOpen := open |}
  end.

Definition run (effects : list effect) (st : state) : state :=
  fold_left apply_effect effects st.

Definition handleFilterSubmit (newFilters : PropertyFilter) : list effect :=
  [console_log "Applying filters:" newFilters; setFilters newFilters]
  ++ match listingType newFilters with
     | Some to =>
         if truthy (Some to) then [setLocation ("/" +:+ to)]
         else if existsb truthy (Object_values newFilters)
              then [setLocation "/buy"] else []
     | None =>
         if existsb truthy (Object_values newFilters)
         then [setLocation "/buy"] else []
     end.

Definition handleScheduleViewing (featuredProperties : list Select.Property)
  (propertyId : Js.number) : list effect :=
  match find (fun p => strict_equal (Select.id p) propertyId)
             featuredProperties with
  | Some property =>
      [setSelectedProperty (Some property); setAppointmentModalOpen true]
  | None => []
  end.

Definition neighborhoods : list (string * Z) :=
  [("Beverly Hills", 24); ("Santa Monica", 32); ("Pasadena", 18);
   ("Downtown LA", 41)].

(** The [onClick] of a neighbourhood card, in a render with [filters]. *)
Definition neighborhood_onClick (filters : PropertyFilter) (name : string)
  : list effect :=
  [setFilters (with_city filters name); setLocation "/buy"].

(** The [onClose] of the appointment form. *)
Definition onClose : list effect :=
  [setAppointmentModalOpen false; setSelectedProperty None].

(** What the user does on the page; a viewing is asked for while the
    featured query holds [featuredProperties]. *)
Inductive event : Type :=
  | FilterSubmit (newFilters : PropertyFilter)
  | ScheduleViewing (featuredProperties : list Select.Property)
      (propertyId : Js.number)
  | NeighborhoodClick (name : string)
  | CloseModal.

Definition handle (st : state) (e : event) : list effect :=
  match e with
  | FilterSubmit newFilters => handleFilterSubmit newFilters
  | ScheduleViewing featuredProperties propertyId =>
      handleScheduleViewing featuredProperties propertyId
  | NeighborhoodClick name => neighborhood_onClick (filters st) name
  | CloseModal => onClose
  end.

Definition step (st : state) (e : event) : state := run (handle st e) st.

(** The property cards grid: six skeletons while loading, the first six
    properties as cards, or the notice that there are none. *)
Inductive listing : Type :=
  | Skeletons (keys : list nat)
  | Cards (cards : list Select.Property)
  | NoProperties.

Definition property_listing (isLoadingProperties : bool)
  (properties : list Select.Property) : listing :=
  if isLoadingProperties then Skeletons (seq 0 6)
  else if (0 <? length properties)%nat then Cards (take 6 properties)
  else NoProperties.

(** The appointment form, when it is rendered: its [propertyId],
    [propertyTitle] and [isOpen]. *)
Definition appointment_form (st : state)
  : option (Js.number * string * bool) :=
  match selectedProperty st with
  | Some p => Some (Select.id p, Select.title p, appointmentModalOpen st)
  | None => None
  end.

End Home.

(** ** Predicates for the further properties *)

(** A schema that takes its own output as it is. *)
Definition stable (s : schema) : Prop :=
  forall at_path v v',
    parse s at_path v = OK v' -> parse s at_path v' = OK v'.

(** What a filter key may hold: nothing, [undefined] or a string. *)
Definition string_or_absent (v : option value) : bool :=
  match v with
  | None | Some VUndefined | Some (VStr _) => true
  | Some _ => false
  end.

(** The modal is open exactly when a property is selected. *)
Definition modal_consistent (st : Home.state) : Prop :=
  Home.appointmentModalOpen st = true <-> is_Some (Home.selectedProperty st).

(** ** More sample values *)

Definition tagged_agent : gmap string value :=
  list_to_map [
    ("name", VStr "Grace Hopper");
    ("specialization", VStr "Lofts");
    ("rating", VStr "4.9");
    ("propertiesSold", num 12);
    ("imageUrl", VStr "https://example.org/grace.jpg");
    ("id", num 3);
    ("isAdmin", VBool true) ].

Definition nameless_agent : gmap string value :=
  list_to_map [
    ("specialization", VStr "Lofts");
    ("rating", num 5);
    ("propertiesSold", VStr "12");
    ("imageUrl", VStr "https://example.org/grace.jpg") ].

Definition sample_row (n : Z) (name : string) : Select.Property :=
  {| Select.id := Js.of_Z n; Select.title := name;
     Select.description := "Two rooms near the park";
     Select.price := "250000.50"; Select.address := "12 Elm Street";
     Select.city := "Austin"; Select.state := "TX";
     Select.zipCode := "78701"; Select.lat := "30.2672";
     Select.lng := "-97.7431"; Select.bedrooms := Js.of_Z 3;
     Select.bathrooms := Js.of_Z 2; Select.squareFeet := Js.of_Z 1200;
     Select.yearBuilt := None; Select.propertyType := "condo";
     Select.listingType := "buy";
     Select.imageUrl := "https://example.org/loft.jpg";
     Select.userId := Js.of_Z 1; Select.featured := Some true;
     Select.status := Some "available"; Select.avgRating := Some "0";
     Select.ratingCount := Some (Js.of_Z 0);
     Select.createdAt := Some (JsDate.Date (Some 0)) |}.

Definition featured_rows : list Select.Property :=
  [sample_row 1 "Sunny loft"; sample_row 2 "Garden flat";
   sample_row 2 "Second entry with the id 2"].

Definition rent_filter : Home.PropertyFilter :=
  {| Home.city := Some "Austin"; Home.minPrice := None;
     Home.maxPrice := Some ""; Home.minBeds := None; Home.minBaths := None;
     Home.propertyType := None; Home.listingType := Some "rent";
     Home.minSqft := None; Home.maxSqft := None; Home.minYear := None;
     Home.maxYear := None |}.

Definition visit : list Home.event :=
  [Home.FilterSubmit rent_filter;
   Home.ScheduleViewing featured_rows (Js.of_Z 2);
   Home.NeighborhoodClick "Pasadena";
   Home.CloseModal;
   Home.ScheduleViewing featured_rows (Js.of_Z 7)].

(** ** The JavaScript primitives on examples *)

Example Number_3 : Js.Number "3" = Js.Dec 3 0.
Proof. reflexivity. Qed.

Example Number_three : Js.Number "three" = Js.NaN.
Proof. reflexivity. Qed.

Example Number_1998 : Js.Number "1998" = Js.Dec 1998 0.
Proof. reflexivity. Qed.

Example Number_fraction : Js.Number " 250000.50 " = Js.Dec 2500005 (-1).
Proof. reflexivity. Qed.

Example Number_exponent : Js.Number "-1.5e3" = Js.Dec (-15) 2.
Proof. reflexivity. Qed.

Example Number_hex : Js.Number "0x1F" = Js.Dec 31 0.
Proof. reflexivity. Qed.

Example Number_empty : Js.Number "" = Js.Dec 0 0.
Proof. reflexivity. Qed.

Example Number_trailing : Js.Number "12px" = Js.NaN.
Proof. reflexivity. Qed.

Example String_250000 : Js.String (Js.Dec 25 4) = "250000".
Proof. reflexivity. Qed.

Example String_fraction : Js.String (Js.Dec 2500005 (-1)) = "250000.5".
Proof. reflexivity. Qed.

Example String_small : Js.String (Js.Dec (-5) (-3)) = "-0.005".
Proof. reflexivity. Qed.

Example String_large : Js.String (Js.Dec 1 21) = "1e+21".
Proof. reflexivity. Qed.

Example Date_parse_iso :
  JsDate.new_Date "2024-05-01T10:00:00Z" = JsDate.Date (Some 1714557600000).
Proof. reflexivity. Qed.

Example Date_parse_epoch :
  JsDate.new_Date "1970-01-01" = JsDate.Date (Some 0).
Proof. reflexivity. Qed.

Example Date_parse_offset :
  JsDate.new_Date "2024-05-01T12:30:00.250+02:30"
  = JsDate.Date (Some 1714557600250).
Proof. reflexivity. Qed.

Example Date_parse_invalid : JsDate.new_Date "not-a-date" = JsDate.Date None.
Proof. reflexivity. Qed.

(** ** Facts about [parse] *)

Lemma parse_object_eq shape at_path o :
  parse (ZObject shape) at_path (VObject o)
  = mergeObjectSync (object_pairs shape at_path o).
Proof.
  simpl. f_equal.
  induction shape as [|[k sk] rest IH]; simpl; [reflexivity|].
  now rewrite IH.
Qed.

Lemma mergeObjectSync_final pairs :
  forallb (fun '(_, r, _) => isValid r) pairs = true ->
  mergeObjectSync pairs = OK (VObject (finalObject pairs ∅)).
Proof.
  intros Hall. unfold mergeObjectSync. rewrite Hall. do 2 f_equal.
  unfold finalObject. generalize (∅ : gmap string value).
  induction pairs as [|[[k r] a] rest IH]; intros acc; simpl; [reflexivity|].
  simpl in Hall. apply andb_prop in Hall as [_ Hrest].
  rewrite <- (IH Hrest). f_equal.
  unfold pair_entry. destruct (value_of r), a; reflexivity.
Qed.

Lemma mergeObjectSync_issues pairs :
  forallb (fun '(_, r, _) => isValid r) pairs = false ->
  mergeObjectSync pairs
  = INVALID (concat (map (fun '(_, r, _) => issues_of r) pairs)).
Proof. intros Hall. unfold mergeObjectSync. now rewrite Hall. Qed.

Lemma finalObject_other pairs init k :
  k ∉ pairs.*1.*1 -> finalObject pairs init !! k = init !! k.
Proof.
  revert init. induction pairs as [|[[k' r] a] rest IH]; intros init Hk.
  - reflexivity.
  - simpl in Hk. apply not_elem_of_cons in Hk as [Hne Hk].
    unfold finalObject in *. simpl. rewrite (IH _ Hk).
    destruct (pair_entry r a); [|reflexivity].
    now rewrite lookup_insert_ne.
Qed.

Lemma finalObject_lookup pairs init k r a :
  NoDup pairs.*1.*1 -> (k, r, a) ∈ pairs -> init !! k = None ->
  finalObject pairs init !! k = pair_entry r a.
Proof.
  revert init. induction pairs as [|[[k' r'] a'] rest IH]; intros init Hnd Hin Hi.
  - now apply elem_of_nil in Hin.
  - simpl in Hnd. apply NoDup_cons in Hnd as [Hfresh Hnd].
    apply elem_of_cons in Hin as [Heq | Hin].
    + injection Heq as <- <- <-.
      change (finalObject rest
                (match pair_entry r a with
                 | Some v => <[k := v]> init
                 | None => init
                 end) !! k = pair_entry r a).
      rewrite (finalObject_other _ _ _ Hfresh).
      destruct (pair_entry r a); [apply lookup_insert_eq | exact Hi].
    + change (finalObject rest
                (match pair_entry r' a' with
                 | Some v => <[k' := v]> init
                 | None => init
                 end) !! k = pair_entry r a).
      apply IH; [exact Hnd | exact Hin |].
      assert (k <> k') as Hne.
      { intros ->. apply Hfresh.
        apply (list_elem_of_fmap_2 fst) in Hin.
        apply (list_elem_of_fmap_2 fst) in Hin. exact Hin. }
      destruct (pair_entry r' a'); [|exact Hi].
      now rewrite lookup_insert_ne.
Qed.

Lemma object_pairs_keys shape at_path o :
  (object_pairs shape at_path o).*1.*1 = shape.*1.
Proof.
  induction shape as [|[k sk] rest IH]; [reflexivity|].
  unfold object_pairs in *. rewrite !fmap_cons. simpl. now f_equal.
Qed.

Lemma object_pairs_elem shape at_path o k sk :
  (k, sk) ∈ shape ->
  (k, parse sk (at_path ++ [Key k]) (get o k), has_key o k)
  ∈ object_pairs shape at_path o.
Proof.
  intros Hin. unfold object_pairs.
  apply (list_elem_of_fmap_2
           (fun '(key, keyValidator) =>
              (key, parse keyValidator (at_path ++ [Key key]) (get o key),
               has_key o key)) _ _ Hin).
Qed.

Lemma parse_union_eq options at_path data :
  parse (ZUnion options) at_path data
  = first_valid at_path ((fun o => parse o at_path data) <$> options) [].
Proof.
  simpl. generalize (@nil (list issue)) at 2 3.
  induction options as [|o rest IH]; intros errs; simpl; [reflexivity|].
  destruct (parse o at_path data); [reflexivity | apply IH].
Qed.

Lemma first_valid_issues at_path results errs i :
  i ∈ issues_of (first_valid at_path results errs) -> issue_path i = at_path.
Proof.
  revert errs. induction results as [|[v|issues] rest IH]; intros errs; simpl.
  - intros Hi. apply list_elem_of_singleton in Hi. now subst.
  - intros Hi. now apply elem_of_nil in Hi.
  - apply IH.
Qed.

Lemma prim_parse_issues p at_path data issues i :
  prim_parse p at_path data = inr issues -> i ∈ issues ->
  issue_path i = at_path.
Proof.
  intros Hp Hi.
  destruct p, data; simpl in Hp;
    repeat match type of Hp with
           | context [if ?b then _ else _] => destruct b
           end;
    try discriminate; injection Hp as <-;
    apply list_elem_of_singleton in Hi; now subst.
Qed.

Lemma mergeArray_issues results i :
  i ∈ issues_of (mergeArray results) ->
  exists r, r ∈ results /\ i ∈ issues_of r.
Proof.
  unfold mergeArray. destruct (forallb isValid results); simpl.
  - intros Hi. now apply elem_of_nil in Hi.
  - intros Hi. apply list_elem_of_In, in_concat in Hi as (l & Hl & Hi).
    apply in_map_iff in Hl as (r & <- & Hr).
    exists r. split; now apply list_elem_of_In.
Qed.

Lemma mergeObjectSync_issue pairs i :
  i ∈ issues_of (mergeObjectSync pairs) ->
  exists k r a, (k, r, a) ∈ pairs /\ i ∈ issues_of r.
Proof.
  unfold mergeObjectSync.
  destruct (forallb (fun '(_, r, _) => isValid r) pairs); simpl.
  - intros Hi. now apply elem_of_nil in Hi.
  - intros Hi. apply list_elem_of_In, in_concat in Hi as (l & Hl & Hi).
    apply in_map_iff in Hl as ([[k r] a] & <- & Hr).
    exists k, r, a. split; now apply list_elem_of_In.
Qed.

Lemma object_pairs_inv shape at_path o k r a :
  (k, r, a) ∈ object_pairs shape at_path o ->
  exists sk, (k, sk) ∈ shape
             /\ r = parse sk (at_path ++ [Key k]) (get o k)
             /\ a = has_key o k.
Proof.
  intros Hin. apply list_elem_of_fmap_1 in Hin as ([k' sk] & Heq & Hin).
  injection Heq as -> -> ->. now exists sk.
Qed.

(** Every issue [parse] raises lies at or below the path it was called
    with. *)
Lemma parse_issue_path s :
  forall at_path data i,
    i ∈ issues_of (parse s at_path data) -> at_path `prefix_of` issue_path i.
Proof.
  induction s as [p| |p f|element IH|inner IH|inner IH|options _|shape IH]
    using schema_nested_ind; intros at_path data i Hi.
  - simpl in Hi. destruct (prim_parse p at_path data) as [x|issues] eqn:Hp.
    + now apply elem_of_nil in Hi.
    + now rewrite (prim_parse_issues _ _ _ _ _ Hp Hi).
  - now apply elem_of_nil in Hi.
  - simpl in Hi. destruct (prim_parse p at_path data) as [x|issues] eqn:Hp.
    + now apply elem_of_nil in Hi.
    + now rewrite (prim_parse_issues _ _ _ _ _ Hp Hi).
  - destruct data; simpl in Hi;
      try (apply list_elem_of_singleton in Hi; now subst).
    apply mergeArray_issues in Hi as (r & Hr & Hi).
    apply list_elem_of_lookup_1 in Hr as [n Hn].
    rewrite list_lookup_imap in Hn.
    destruct (items !! n) as [item|]; [|discriminate].
    injection Hn as <-. apply IH in Hi.
    etransitivity; [|exact Hi]. now apply prefix_app_r.
  - destruct data; simpl in Hi; try (now apply IH in Hi).
    now apply elem_of_nil in Hi.
  - destruct data; simpl in Hi; try (now apply IH in Hi).
    now apply elem_of_nil in Hi.
  - rewrite parse_union_eq in Hi.
    now rewrite (first_valid_issues _ _ _ _ Hi).
  - destruct data;
      try (simpl in Hi; apply list_elem_of_singleton in Hi; now subst).
    rewrite parse_object_eq in Hi.
    apply mergeObjectSync_issue in Hi as (k & r & a & Hin & Hi).
    apply object_pairs_inv in Hin as (sk & Hin & -> & _).
    rewrite Forall_forall in IH. apply (IH _ Hin) in Hi.
    etransitivity; [|exact Hi]. now apply prefix_app_r.
Qed.

Lemma shape_functional (shape : list (string * schema)) k s1 s2 :
  NoDup shape.*1 -> (k, s1) ∈ shape -> (k, s2) ∈ shape -> s1 = s2.
Proof.
  induction shape as [|[k' s'] rest IH]; intros Hnd H1 H2.
  - now apply elem_of_nil in H1.
  - simpl in Hnd. apply NoDup_cons in Hnd as [Hfresh Hnd].
    apply elem_of_cons in H1 as [H1|H1], H2 as [H2|H2].
    + congruence.
    + injection H1 as -> ->. exfalso. apply Hfresh.
      now apply (list_elem_of_fmap_2 fst) in H2.
    + injection H2 as -> ->. exfalso. apply Hfresh.
      now apply (list_elem_of_fmap_2 fst) in H1.
    + now apply IH.
Qed.

Lemma parse_object_cases shape at_path o :
  let pairs := object_pairs shape at_path o in
  (forallb (fun '(_, r, _) => isValid r) pairs = true
   /\ parse (ZObject shape) at_path (VObject o)
      = OK (VObject (finalObject pairs ∅)))
  \/ (exists issues,
        parse (ZObject shape) at_path (VObject o) = INVALID issues
        /\ forall i, i ∈ issues ->
             exists k sk, (k, sk) ∈ shape
               /\ i ∈ issues_of (parse sk (at_path ++ [Key k]) (get o k))).
Proof.
  intros pairs. rewrite parse_object_eq. fold pairs.
  destruct (forallb (fun '(_, r, _) => isValid r) pairs) eqn:Hall.
  - left. split; [reflexivity | now apply mergeObjectSync_final].
  - right. exists (issues_of (mergeObjectSync pairs)).
    split; [now rewrite (mergeObjectSync_issues _ Hall)|].
    intros i Hi.
    apply mergeObjectSync_issue in Hi as (k & r & a & Hin & Hi).
    apply object_pairs_inv in Hin as (sk & Hin & -> & _).
    now exists k, sk.
Qed.

(** A field whose own validator accepts it shows in the validated object
    with the validator's output, and is named by no issue. *)
Lemma field_validated shape o f sf v :
  NoDup shape.*1 -> (f, sf) ∈ shape ->
  parse sf [Key f] (get o f) = OK v ->
  validated (ZObject shape) o f v.
Proof.
  intros Hnd Hin Hf. unfold validated, safeParse.
  destruct (parse_object_cases shape [] o) as [[_ ->]|(issues & -> & Hiss)].
  - unfold get at 1.
    rewrite (finalObject_lookup _ _ f (parse sf [Key f] (get o f)) (has_key o f)).
    + rewrite Hf. unfold pair_entry. simpl.
      destruct v, (has_key o f); reflexivity.
    + now rewrite object_pairs_keys.
    + now apply (object_pairs_elem shape [] o).
    + apply lookup_empty.
  - intros i Hi Hpath. apply Hiss in Hi as (k & sk & Hk & Hi).
    pose proof (parse_issue_path _ _ _ _ Hi) as Hpre.
    rewrite Hpath in Hpre. simpl in Hpre.
    destruct Hpre as [rest Hrest]. injection Hrest as -> _.
    change ([] ++ [Key k]) with [Key k] in Hi.
    rewrite (shape_functional _ _ _ _ Hnd Hk Hin), Hf in Hi.
    now apply elem_of_nil in Hi.
Qed.

(** A field whose own validator rejects it fails the whole object, with
    the validator's issues among the object's. *)
Lemma field_rejected shape o f sf issues :
  (f, sf) ∈ shape ->
  parse sf [Key f] (get o f) = INVALID issues ->
  exists all, safeParse (ZObject shape) (VObject o) = INVALID all
              /\ forall i, i ∈ issues -> i ∈ all.
Proof.
  intros Hin Hf. unfold safeParse. rewrite parse_object_eq.
  assert (forallb (fun '(_, r, _) => isValid r) (object_pairs shape [] o)
          = false) as Hall.
  { apply not_true_is_false. intros Hall.
    rewrite forallb_forall in Hall.
    specialize (Hall _ (proj1 (list_elem_of_In _ _)
                          (object_pairs_elem shape [] o f sf Hin))).
    simpl in Hall. now rewrite Hf in Hall. }
  rewrite (mergeObjectSync_issues _ Hall). eexists. split; [reflexivity|].
  intros i Hi. apply list_elem_of_In, in_concat.
  exists issues. split; [|now apply list_elem_of_In].
  apply in_map_iff.
  exists (f, parse sf ([] ++ [Key f]) (get o f), has_key o f). split.
  - simpl. now rewrite Hf.
  - apply list_elem_of_In. now apply object_pairs_elem.
Qed.

(** Keys outside the shape are stripped from the validated object. *)
Lemma parse_object_strips shape at_path o r k :
  parse (ZObject shape) at_path (VObject o) = OK (VObject r) ->
  k ∉ shape.*1 -> r !! k = None.
Proof.
  intros Hp Hk.
  destruct (parse_object_cases shape at_path o)
    as [[_ Heq]|(issues & Heq & _)]; rewrite Heq in Hp; [|discriminate].
  injection Hp as <-.
  rewrite finalObject_other; [apply lookup_empty|].
  now rewrite object_pairs_keys.
Qed.

(** An object whose every field its validator returns as it is, and
    which has no key outside the shape, is returned as it is. *)
Lemma parse_object_unchanged shape at_path o :
  NoDup shape.*1 ->
  (forall k, is_Some (o !! k) -> k ∈ shape.*1) ->
  Forall (fun '(k, sk) =>
            parse sk (at_path ++ [Key k]) (get o k) = OK (get o k)) shape ->
  parse (ZObject shape) at_path (VObject o) = OK (VObject o).
Proof.
  intros Hnd Hdom Hall.
  rewrite Forall_forall in Hall.
  rewrite parse_object_eq, mergeObjectSync_final.
  - do 2 f_equal. apply map_eq. intros k.
    destruct (decide (k ∈ shape.*1)) as [Hk|Hk].
    + apply list_elem_of_fmap_1 in Hk as ([k' sk] & -> & Hin). simpl.
      rewrite (finalObject_lookup _ _ k' _ _
                 (eq_ind_r (@NoDup string) Hnd
                    (object_pairs_keys shape at_path o))
                 (object_pairs_elem shape at_path o k' sk Hin)
                 (lookup_empty _)).
      rewrite (Hall _ Hin). unfold pair_entry, get, has_key. simpl.
      destruct (o !! k') as [[]|]; reflexivity.
    + rewrite finalObject_other by now rewrite object_pairs_keys.
      rewrite lookup_empty. symmetry. apply eq_None_not_Some.
      intros Hsome. now apply Hk, Hdom.
  - apply forallb_forall. intros [[k r] a] Hin.
    apply list_elem_of_In, object_pairs_inv in Hin as (sk & Hin & -> & _).
    now rewrite (Hall _ Hin).
Qed.

Lemma parse_object_ok_field shape at_path o r f sf :
  NoDup shape.*1 -> (f, sf) ∈ shape ->
  parse (ZObject shape) at_path (VObject o) = OK (VObject r) ->
  exists v, parse sf (at_path ++ [Key f]) (get o f) = OK v
            /\ r !! f = pair_entry (OK v) (has_key o f).
Proof.
  intros Hnd Hin Hp.
  destruct (parse_object_cases shape at_path o)
    as [[Hall Heq]|(issues & Heq & _)]; rewrite Heq in Hp; [|discriminate].
  injection Hp as <-.
  rewrite forallb_forall in Hall.
  pose proof (object_pairs_elem shape at_path o f sf Hin) as Hpair.
  specialize (Hall _ (proj1 (list_elem_of_In _ _) Hpair)). simpl in Hall.
  destruct (parse sf (at_path ++ [Key f]) (get o f)) as [v|] eqn:Hf;
    [|discriminate].
  exists v. split; [reflexivity|].
  apply finalObject_lookup; [|exact Hpair|apply lookup_empty].
  now rewrite object_pairs_keys.
Qed.

(** ** The insert schemas, spelled out *)

Lemma insertUserSchema_eq :
  insertUserSchema = ZObject [
    ("id", ZOptional z_number);
    ("username", z_string);
    ("password", z_string);
    ("email", z_string);
    ("fullName", z_string);
    ("savedProperties", ZOptional (ZArray z_number));
    ("createdAt", ZOptional (ZNullable z_date)) ].
Proof. reflexivity. Qed.

Lemma insertPropertySchema_eq :
  insertPropertySchema = ZObject [
    ("title", z_string);
    ("description", z_string);
    ("price", ZUnion [z_string; ZTransform PNumber number_to_string]);
    ("address", z_string);
    ("city", z_string);
    ("state", z_string);
    ("zipCode", z_string);
    ("lat", ZUnion [z_string; ZTransform PNumber number_to_string]);
    ("lng", ZUnion [z_string; ZTransform PNumber number_to_string]);
    ("bedrooms", ZUnion [z_number; ZTransform PString string_to_number]);
    ("bathrooms", ZUnion [z_number; ZTransform PString string_to_number]);
    ("squareFeet", ZUnion [z_number; ZTransform PString string_to_number]);
    ("yearBuilt",
      ZOptional (ZNullable (ZUnion [
        ZOptional z_number;
        ZOptional (ZTransform PString string_to_year) ])));
    ("propertyType", z_string);
    ("listingType", z_string);
    ("imageUrl", z_string);
    ("userId", z_number);
    ("featured", ZOptional (ZNullable (ZPrim PBoolean)));
    ("status", ZOptional (ZNullable z_string));
    ("avgRating", ZOptional (ZNullable z_string));
    ("ratingCount", ZOptional (ZNullable z_number)) ].
Proof. reflexivity. Qed.

Lemma insertAppointmentSchema_eq :
  insertAppointmentSchema = ZObject [
    ("propertyId", z_number);
    ("userId", z_number);
    ("date", ZUnion [z_date; ZTransform PString string_to_date]);
    ("message", ZOptional (ZNullable z_string));
    ("status", ZOptional (ZNullable z_string)) ].
Proof. reflexivity. Qed.

Ltac in_shape :=
  repeat first [apply list_elem_of_here | apply list_elem_of_further].

Ltac keys_nodup :=
  apply (bool_decide_unpack _); vm_compute; exact I.

Ltac cases_of H :=
  repeat (apply elem_of_cons in H as [->|H]); [..|now apply elem_of_nil in H].

(** ** Coercion of the property counts *)

(** C1, what the code does at a non-numeric count.  The text ["three"] is
    no number, [Number("three")] being NaN, and a property payload with
    it as [bedrooms] validates all the same: the transform's output is
    not checked, and NaN is stored for the field. *)
Lemma non_numeric_count_accepted :
  Js.Number "three" = Js.NaN
  /\ safeParse insertPropertySchema (VObject three_bedrooms)
     = OK (VObject (<["bedrooms" := VNum Js.NaN]> sample_property)).
Proof. split; vm_compute; reflexivity. Qed.

(** C1, amended.  In a property payload each of [bedrooms], [bathrooms]
    and [squareFeet] may be a number, which passes through, or a string:
    a string [s] of any content validates to [Number(s)], which is the
    number it spells or, when it spells none, NaN; neither shape raises
    an issue at the field. *)
Theorem count_fields_coerce (f : string) (o : gmap string value) :
  f ∈ count_fields ->
  (forall n, o !! f = Some (VNum n) -> Js.isNaN n = false ->
             validated insertPropertySchema o f (VNum n))
  /\ (forall s, o !! f = Some (VStr s) ->
                validated insertPropertySchema o f (VNum (Js.Number s))).
Proof.
  intros Hf. rewrite insertPropertySchema_eq.
  unfold count_fields in Hf. cases_of Hf.
  all: split; [intros n Ho Hn | intros s Ho].
  all: eapply field_validated; [keys_nodup | in_shape |].
  all: unfold get; rewrite Ho; simpl; rewrite ?Hn; reflexivity.
Qed.

Lemma count_fields_coerce_witness :
  validated insertPropertySchema
    (<["bedrooms" := VStr "3"]> sample_property) "bedrooms" (num 3)
  /\ validated insertPropertySchema sample_property "squareFeet" (num 1200)
  /\ validated insertPropertySchema three_bedrooms "bedrooms" (VNum Js.NaN).
Proof.
  split; [|split].
  - apply (proj2 (count_fields_coerce "bedrooms"
                    (<["bedrooms" := VStr "3"]> sample_property)
                    ltac:(in_shape)) "3").
    vm_compute; reflexivity.
  - apply (proj1 (count_fields_coerce "squareFeet" sample_property
                    ltac:(in_shape)) (Js.of_Z 1200)).
    + vm_compute; reflexivity.
    + reflexivity.
  - apply (proj2 (count_fields_coerce "bedrooms" three_bedrooms
                    ltac:(in_shape)) "three").
    vm_compute; reflexivity.
Defined.

Example bedrooms_string_parsed :
  safeParse insertPropertySchema
    (VObject (<["bedrooms" := VStr "3"]> sample_property))
  = OK (VObject sample_property).
Proof. vm_compute; reflexivity. Qed.

(** ** Coercion of the appointment date *)

(** C2, what the code does at an unparseable date.  ["not-a-date"] has no
    time value, and an appointment payload carrying it validates all the
    same, to the invalid date. *)
Lemma unparseable_date_accepted :
  JsDate.new_Date "not-a-date" = JsDate.Date None
  /\ safeParse insertAppointmentSchema
       (VObject (undated_appointment (VStr "not-a-date")))
     = OK (VObject (undated_appointment (VDate (JsDate.Date None)))).
Proof. split; vm_compute; reflexivity. Qed.

(** C2, amended.  In an appointment payload [date] may be a date with a
    time value, which passes through, or a string: a string [s] of any
    content validates to [new Date(s)], which is the date it spells or,
    when it spells none, the invalid date; neither shape raises an issue
    at the field. *)
Theorem date_field_coerce (o : gmap string value) :
  (forall d, o !! "date" = Some (VDate d) -> JsDate.is_invalid d = false ->
             validated insertAppointmentSchema o "date" (VDate d))
  /\ (forall s, o !! "date" = Some (VStr s) ->
                validated insertAppointmentSchema o "date"
                  (VDate (JsDate.new_Date s))).
Proof.
  rewrite insertAppointmentSchema_eq.
  split; [intros d Ho Hd | intros s Ho].
  all: eapply field_validated; [keys_nodup | in_shape |].
  all: unfold get; rewrite Ho; simpl; rewrite ?Hd; reflexivity.
Qed.

Lemma date_field_coerce_witness :
  validated insertAppointmentSchema
    (undated_appointment (VStr "2024-05-01T10:00:00Z")) "date"
    (VDate (JsDate.Date (Some 1714557600000)))
  /\ validated insertAppointmentSchema sample_appointment "date"
       (VDate (JsDate.Date (Some 1714557600000))).
Proof.
  split.
  - apply (proj2 (date_field_coerce
                    (undated_appointment (VStr "2024-05-01T10:00:00Z")))
             "2024-05-01T10:00:00Z").
    vm_compute; reflexivity.
  - apply (proj1 (date_field_coerce sample_appointment)
             (JsDate.Date (Some 1714557600000))).
    + vm_compute; reflexivity.
    + reflexivity.
Defined.

Example date_string_parsed :
  safeParse insertAppointmentSchema
    (VObject (undated_appointment (VStr "2024-05-01T10:00:00Z")))
  = OK (VObject sample_appointment).
Proof. vm_compute; reflexivity. Qed.

(** ** Server-assigned keys *)

(** C3, at the user schema.  [insertUserSchema] is built without the
    [omit] its siblings end with, so [id] and [createdAt] stay in its
    shape as optional keys: a user payload that carries them validates
    and keeps both. *)
Theorem insertUser_keeps_server_keys :
  exists r,
    safeParse (insertSchema User) (VObject user_with_id) = OK (VObject r)
    /\ r !! "id" = Some (num 7)
    /\ r !! "createdAt" = Some (VDate (JsDate.Date (Some 0))).
Proof. eexists. split; [vm_compute; reflexivity|]. split; reflexivity. Qed.

(** The schemas that end with [omit] never return a server-assigned key,
    whatever the payload carries. *)
Lemma omitted_server_keys (e : entity) (o r : gmap string value) (k : string) :
  e <> User -> k ∈ server_assigned ->
  safeParse (insertSchema e) (VObject o) = OK (VObject r) ->
  r !! k = None.
Proof.
  intros He Hk Hp. unfold server_assigned in Hk.
  destruct e; [now destruct He| |]; simpl in Hp; unfold safeParse in Hp.
  - rewrite insertPropertySchema_eq in Hp.
    eapply parse_object_strips; [exact Hp|].
    cases_of Hk; apply (bool_decide_unpack _); vm_compute; exact I.
  - rewrite insertAppointmentSchema_eq in Hp.
    eapply parse_object_strips; [exact Hp|].
    cases_of Hk; apply (bool_decide_unpack _); vm_compute; exact I.
Qed.

Example property_id_stripped :
  safeParse insertPropertySchema
    (VObject (<["id" := num 7]> sample_property))
  = OK (VObject sample_property).
Proof. vm_compute; reflexivity. Qed.

(** ** Coercion of the property decimals *)

(** C4.  In a property payload each of [price], [lat] and [lng] may be a
    number [n], which validates to the string [String(n)], or a string,
    which validates to itself; neither raises an issue at the field, and
    whenever the payload validates the field's value is a string. *)
Theorem decimal_fields_textual (f : string) (o : gmap string value) :
  f ∈ decimal_fields ->
  (forall n, o !! f = Some (VNum n) -> Js.isNaN n = false ->
             validated insertPropertySchema o f (VStr (Js.String n)))
  /\ (forall s, o !! f = Some (VStr s) ->
                validated insertPropertySchema o f (VStr s))
  /\ (forall r, safeParse insertPropertySchema (VObject o) = OK (VObject r) ->
                exists s, r !! f = Some (VStr s)).
Proof.
  intros Hf. rewrite insertPropertySchema_eq.
  unfold decimal_fields in Hf. cases_of Hf.
  all: split; [intros n Ho Hn | split; [intros s Ho | intros r Hp]].
  all: try (eapply field_validated; [keys_nodup | in_shape |];
            unfold get; rewrite Ho; simpl; rewrite ?Hn; reflexivity).
  all: unfold safeParse in Hp;
    eapply parse_object_ok_field in Hp as (v & Hv & ->);
    [|keys_nodup|in_shape].
  all: destruct (get o _) as [| | |n|s| | |]; simpl in Hv;
    try discriminate;
    try (destruct (Js.isNaN n); [discriminate|]);
    injection Hv as <-; eexists; reflexivity.
Qed.

Lemma decimal_fields_textual_witness :
  validated insertPropertySchema
    (<["price" := num 250000]> sample_property) "price" (VStr "250000")
  /\ validated insertPropertySchema sample_property "price" (VStr "250000.50")
  /\ exists s, sample_property !! "lat" = Some (VStr s).
Proof.
  split; [|split].
  - apply (proj1 (decimal_fields_textual "price"
                    (<["price" := num 250000]> sample_property)
                    ltac:(in_shape)) (Js.of_Z 250000)).
    + vm_compute; reflexivity.
    + reflexivity.
  - apply (proj1 (proj2 (decimal_fields_textual "price" sample_property
                           ltac:(in_shape))) "250000.50").
    vm_compute; reflexivity.
  - apply (proj2 (proj2 (decimal_fields_textual "lat" sample_property
                           ltac:(in_shape))) sample_property).
    vm_compute; reflexivity.
Defined.

Example price_number_rendered :
  safeParse insertPropertySchema
    (VObject (<["price" := num 250000]> sample_property))
  = OK (VObject (<["price" := VStr "250000"]> sample_property)).
Proof. vm_compute; reflexivity. Qed.

(** ** Declared defaults *)

Lemma create_lookup t next_id now values k c :
  NoDup (columns t).*1 -> (k, c) ∈ columns t ->
  Storage.create t next_id now values !! k
  = Some (Storage.column_value next_id now c (get values k)).
Proof.
  intros Hnd Hin. unfold Storage.create.
  apply elem_of_list_to_map_1.
  - rewrite <- list_fmap_compose.
    erewrite list_fmap_ext; [exact Hnd|]. now intros ? [].
  - apply (list_elem_of_fmap_2
             (fun '(k, c) =>
                (k, Storage.column_value next_id now c (get values k)))
             _ _ Hin).
Qed.

(** A column declared with a literal default takes it when the inserted
    values leave the column out. *)
Lemma create_default t next_id now values k c v :
  NoDup (columns t).*1 -> (k, c) ∈ columns t ->
  default c = Some (Literal v) -> values !! k = None ->
  Storage.create t next_id now values !! k = Some v.
Proof.
  intros Hnd Hin Hd Hk. rewrite (create_lookup _ _ _ _ _ _ Hnd Hin).
  unfold get. rewrite Hk. simpl. now rewrite Hd.
Qed.

(** C5.  A user created without [savedProperties] has the empty
    collection, and a property created without [featured], [status],
    [avgRating] or [ratingCount] has [false], ["available"], ["0"] and [0]
    there: the defaults the tables declare. *)
Theorem declared_defaults_applied
  (next_id : Z) (now : JsDate.date) (values : gmap string value) :
  (values !! "savedProperties" = None ->
   Storage.create users next_id now values !! "savedProperties"
   = Some (VArray []))
  /\ (values !! "featured" = None ->
      Storage.create properties next_id now values !! "featured"
      = Some (VBool false))
  /\ (values !! "status" = None ->
      Storage.create properties next_id now values !! "status"
      = Some (VStr "available"))
  /\ (values !! "avgRating" = None ->
      Storage.create properties next_id now values !! "avgRating"
      = Some (VStr "0"))
  /\ (values !! "ratingCount" = None ->
      Storage.create properties next_id now values !! "ratingCount"
      = Some (num 0)).
Proof.
  repeat split; intros Hk.
  all: eapply create_default; [keys_nodup | in_shape | reflexivity | exact Hk].
Qed.

Lemma declared_defaults_applied_witness :
  Storage.create users 1 (JsDate.Date (Some 0)) sample_user
    !! "savedProperties" = Some (VArray [])
  /\ Storage.create properties 1 (JsDate.Date (Some 0)) sample_property
       !! "status" = Some (VStr "available").
Proof.
  split.
  - apply (proj1 (declared_defaults_applied 1 (JsDate.Date (Some 0))
                    sample_user)).
    vm_compute; reflexivity.
  - apply (proj1 (proj2 (proj2 (declared_defaults_applied 1
                                   (JsDate.Date (Some 0)) sample_property)))).
    vm_compute; reflexivity.
Defined.

Example created_user :
  Storage.create users 1 (JsDate.Date (Some 0)) sample_user
  = <["id" := num 1]>
      (<["savedProperties" := VArray []]>
         (<["createdAt" := VDate (JsDate.Date (Some 0))]> sample_user)).
Proof. vm_compute; reflexivity. Qed.

(** ** Missing required fields *)

Example required_keys_properties :
  required_keys properties
  = ["title"; "description"; "price"; "address"; "city"; "state"; "zipCode";
     "lat"; "lng"; "bedrooms"; "bathrooms"; "squareFeet"; "propertyType";
     "listingType"; "imageUrl"; "userId"].
Proof. reflexivity. Qed.

(** C6.  A property payload that lacks a required field fails validation,
    and among the issues is one that names the field and reports it
    missing; nothing is validated in its place. *)
Theorem missing_required_field (f : string) (o : gmap string value) :
  f ∈ required_keys properties -> o !! f = None ->
  exists issues,
    safeParse insertPropertySchema (VObject o) = INVALID issues
    /\ exists i, i ∈ issues /\ issue_path i = [Key f] /\ missing_field f i.
Proof.
  intros Hf Ho. rewrite insertPropertySchema_eq.
  rewrite required_keys_properties in Hf. cases_of Hf.
  all: match goal with
       | |- context [safeParse (ZObject ?shape) _] =>
           match type of Ho with
           | _ !! ?k = None =>
               edestruct (field_rejected shape o k) as (issues & Hp & Hin)
           end;
           [in_shape | unfold get; rewrite Ho; reflexivity |]
       end.
  all: exists issues; split; [exact Hp|];
    eexists; split; [apply Hin, list_elem_of_here|];
    split; [reflexivity|].
  all: try apply missing_required.
  all: apply missing_in_union; [discriminate|];
    repeat (apply List.Forall_cons;
            [split; [discriminate|];
             apply List.Forall_cons; [apply missing_required|apply List.Forall_nil]
            |]);
    apply List.Forall_nil.
Qed.

Lemma missing_required_field_witness :
  exists issues,
    safeParse insertPropertySchema (VObject (delete "title" sample_property))
    = INVALID issues
    /\ exists i, i ∈ issues /\ issue_path i = [Key "title"]
                 /\ missing_field "title" i.
Proof.
  apply (missing_required_field "title" (delete "title" sample_property)).
  - in_shape.
  - vm_compute; reflexivity.
Defined.

Example missing_title :
  safeParse insertPropertySchema (VObject (delete "title" sample_property))
  = INVALID [invalid_type [Key "title"] t_string t_undefined].
Proof. vm_compute; reflexivity. Qed.

Example missing_price :
  safeParse insertPropertySchema (VObject (delete "price" sample_property))
  = INVALID [invalid_union [Key "price"]
               [[invalid_type [Key "price"] t_string t_undefined];
                [invalid_type [Key "price"] t_number t_undefined]]].
Proof. vm_compute; reflexivity. Qed.

(** ** The optional year *)

(** C7.  [yearBuilt] is optional in a property payload: left out or the
    empty string, its validated value is [undefined]; a non-empty string
    [s] validates to [Number(s)], so ["1998"] to [1998]; a number passes
    through.  None of these raises an issue at the field. *)
Theorem yearBuilt_optional (o : gmap string value) :
  (o !! "yearBuilt" = None ->
   validated insertPropertySchema o "yearBuilt" VUndefined)
  /\ (o !! "yearBuilt" = Some (VStr "") ->
      validated insertPropertySchema o "yearBuilt" VUndefined)
  /\ (forall s, o !! "yearBuilt" = Some (VStr s) -> s <> "" ->
                validated insertPropertySchema o "yearBuilt"
                  (VNum (Js.Number s)))
  /\ (forall n, o !! "yearBuilt" = Some (VNum n) -> Js.isNaN n = false ->
                validated insertPropertySchema o "yearBuilt" (VNum n)).
Proof.
  rewrite insertPropertySchema_eq.
  split; [intros Ho | split; [intros Ho | split; [intros s Ho Hs | intros n Ho Hn]]].
  all: eapply field_validated; [keys_nodup | in_shape |].
  all: unfold get; rewrite Ho; simpl; rewrite ?Hn; try reflexivity.
  unfold string_to_year.
  destruct (String.eqb_spec s ""); [contradiction | reflexivity].
Qed.

Lemma yearBuilt_optional_witness :
  validated insertPropertySchema sample_property "yearBuilt" VUndefined
  /\ validated insertPropertySchema
       (<["yearBuilt" := VStr ""]> sample_property) "yearBuilt" VUndefined
  /\ validated insertPropertySchema
       (<["yearBuilt" := VStr "1998"]> sample_property) "yearBuilt" (num 1998)
  /\ validated insertPropertySchema
       (<["yearBuilt" := num 1998]> sample_property) "yearBuilt" (num 1998).
Proof.
  split; [|split; [|split]].
  - apply (proj1 (yearBuilt_optional sample_property)).
    vm_compute; reflexivity.
  - apply (proj1 (proj2 (yearBuilt_optional
                           (<["yearBuilt" := VStr ""]> sample_property)))).
    vm_compute; reflexivity.
  - apply (proj1 (proj2 (proj2 (yearBuilt_optional
                           (<["yearBuilt" := VStr "1998"]> sample_property))))
             "1998").
    + vm_compute; reflexivity.
    + discriminate.
  - apply (proj2 (proj2 (proj2 (yearBuilt_optional
                           (<["yearBuilt" := num 1998]> sample_property))))
             (Js.of_Z 1998)).
    + vm_compute; reflexivity.
    + reflexivity.
Defined.

Example yearBuilt_omitted :
  safeParse insertPropertySchema (VObject sample_property)
  = OK (VObject sample_property).
Proof. vm_compute; reflexivity. Qed.

Example yearBuilt_empty :
  safeParse insertPropertySchema
    (VObject (<["yearBuilt" := VStr ""]> sample_property))
  = OK (VObject (<["yearBuilt" := VUndefined]> sample_property)).
Proof. vm_compute; reflexivity. Qed.

Example yearBuilt_1998 :
  safeParse insertPropertySchema
    (VObject (<["yearBuilt" := VStr "1998"]> sample_property))
  = OK (VObject (<["yearBuilt" := num 1998]> sample_property)).
Proof. vm_compute; reflexivity. Qed.

(** ** The property filter *)

(** C9.  The filter schema is an object of exactly eleven keys, each an
    optional string, and it validates the empty object and an object
    with [city] alone, returning each as it is. *)
Theorem filter_schema_declared :
  propertyFilterSchema
  = ZObject ((fun k => (k, ZOptional z_string)) <$> filter_keys)
  /\ length filter_keys = 11%nat
  /\ NoDup filter_keys
  /\ safeParse propertyFilterSchema (VObject ∅) = OK (VObject ∅)
  /\ forall city,
       safeParse propertyFilterSchema (VObject {["city" := VStr city]})
       = OK (VObject {["city" := VStr city]}).
Proof.
  split; [reflexivity|]. split; [reflexivity|]. split; [keys_nodup|].
  split; [vm_compute; reflexivity|].
  intros city. vm_compute. reflexivity.
Qed.

(** C10.  An object whose recognised fields each pass their validator
    validates whatever other keys it carries, and the validated object
    has the recognised keys only, each as the input had it. *)
Theorem filter_strips_unknown (o : gmap string value) :
  (forall k sk, (k, sk) ∈ shape_of propertyFilterSchema ->
                isValid (parse sk [Key k] (get o k)) = true) ->
  exists r,
    safeParse propertyFilterSchema (VObject o) = OK (VObject r)
    /\ (forall k, is_Some (r !! k) -> k ∈ filter_keys)
    /\ (forall k, k ∈ filter_keys -> r !! k = o !! k).
Proof.
  intros Hvalid. unfold safeParse.
  change propertyFilterSchema with (ZObject (shape_of propertyFilterSchema)).
  rewrite parse_object_eq, mergeObjectSync_final.
  - eexists. split; [reflexivity|]. split.
    + intros k Hk. destruct (decide (k ∈ filter_keys)) as [|Hnot]; [assumption|].
      rewrite finalObject_other in Hk.
      * rewrite lookup_empty in Hk. now destruct Hk.
      * now rewrite object_pairs_keys.
    + intros k Hk.
      assert ((k, ZOptional z_string) ∈ shape_of propertyFilterSchema) as Hin.
      { unfold filter_keys in Hk. cases_of Hk; simpl; in_shape. }
      assert (NoDup (shape_of propertyFilterSchema).*1) as Hnd
        by keys_nodup.
      rewrite (finalObject_lookup _ _ k _ _
                 (eq_ind_r (@NoDup string) Hnd (object_pairs_keys _ [] o))
                 (object_pairs_elem _ [] o k _ Hin) (lookup_empty _)).
      specialize (Hvalid _ _ Hin). simpl in *.
      unfold pair_entry, get, has_key in *.
      destruct (o !! k) as [[]|]; simpl in *; try discriminate; reflexivity.
  - apply forallb_forall. intros [[k r] a] Hin.
    apply list_elem_of_In, object_pairs_inv in Hin as (sk & Hin & -> & _).
    now apply Hvalid.
Qed.

Lemma filter_strips_unknown_witness :
  exists r,
    safeParse propertyFilterSchema (VObject filter_with_page) = OK (VObject r)
    /\ (forall k, is_Some (r !! k) -> k ∈ filter_keys)
    /\ (forall k, k ∈ filter_keys -> r !! k = filter_with_page !! k).
Proof.
  apply (filter_strips_unknown filter_with_page).
  intros k sk Hin. simpl in Hin.
  repeat (apply elem_of_cons in Hin as [Heq|Hin];
          [injection Heq as -> ->; vm_compute; reflexivity|]).
  now apply elem_of_nil in Hin.
Defined.

Example filter_page_stripped :
  safeParse propertyFilterSchema (VObject filter_with_page)
  = OK (VObject {["city" := VStr "Austin"]}).
Proof. vm_compute; reflexivity. Qed.

(** ** Canonical values pass unchanged *)

Lemma mergeArray_unchanged (g : nat -> value -> result) (items : list value) :
  (forall i v, items !! i = Some v -> g i v = OK v) ->
  mergeArray (imap g items) = OK (VArray items).
Proof.
  intros Hg.
  assert (forallb isValid (imap g items) = true
          /\ map value_of (imap g items) = items) as [Hall Hmap].
  { revert g Hg. induction items as [|x rest IH]; intros g Hg; [now split|].
    simpl. rewrite (Hg 0%nat x eq_refl). simpl.
    destruct (IH (g ∘ S)) as [Hall Hmap].
    - intros i v Hi. apply (Hg (S i) v Hi).
    - split; [exact Hall | now rewrite Hmap]. }
  unfold mergeArray. now rewrite Hall, Hmap.
Qed.

(** A value of a column's kind passes the column's schema unchanged. *)
Lemma has_type_parse (t : data_type) :
  forall at_path v,
    has_type t v = true -> parse (mapDataType t) at_path v = OK v.
Proof.
  induction t as [| | | |base IH]; intros at_path v Hv;
    destruct v; simpl in Hv; try discriminate; simpl.
  - destruct (Js.isNaN n); [discriminate | reflexivity].
  - reflexivity.
  - reflexivity.
  - destruct (JsDate.is_invalid d); [discriminate | reflexivity].
  - apply mergeArray_unchanged. intros i v Hi. apply IH.
    rewrite forallb_forall in Hv.
    now apply Hv, list_elem_of_In, (list_elem_of_lookup_2 _ i).
Qed.

Lemma canonical_field t o k c :
  is_canonical t o = true -> (k, c) ∈ columns t -> k ∉ server_assigned ->
  field_canonical c (o !! k) = true.
Proof.
  intros Hcan Hin Hk. unfold is_canonical in Hcan.
  apply andb_prop in Hcan as [Hcols _].
  rewrite forallb_forall in Hcols.
  specialize (Hcols _ (proj1 (list_elem_of_In _ _) Hin)). simpl in Hcols.
  now rewrite (bool_decide_eq_false_2 _ Hk) in Hcols.
Qed.

Lemma canonical_server t o k c :
  is_canonical t o = true -> (k, c) ∈ columns t -> k ∈ server_assigned ->
  o !! k = None.
Proof.
  intros Hcan Hin Hk. unfold is_canonical in Hcan.
  apply andb_prop in Hcan as [Hcols _].
  rewrite forallb_forall in Hcols.
  specialize (Hcols _ (proj1 (list_elem_of_In _ _) Hin)). simpl in Hcols.
  rewrite (bool_decide_eq_true_2 _ Hk) in Hcols. unfold has_key in Hcols.
  now destruct (o !! k).
Qed.

Lemma canonical_keys t o k :
  is_canonical t o = true -> is_Some (o !! k) -> k ∈ (columns t).*1.
Proof.
  intros Hcan [v Hv]. unfold is_canonical in Hcan.
  apply andb_prop in Hcan as [_ Hdom].
  rewrite forallb_forall in Hdom.
  apply elem_of_map_to_list in Hv.
  apply (list_elem_of_fmap_2 fst), list_elem_of_In in Hv.
  apply Hdom in Hv. now apply bool_decide_eq_true in Hv.
Qed.

Ltac server_key :=
  apply (bool_decide_unpack _); vm_compute; exact I.

(** One field of a canonical payload, under the schema of its key. *)
Ltac canonical_field_case t Hcan :=
  match goal with
  | |- parse _ _ (get ?o ?k) = _ =>
      first
        [ (eassert (o !! k = None) as Hnone
             by (eapply (canonical_server t o k);
                 [exact Hcan | simpl; in_shape | server_key]);
           unfold get; rewrite Hnone; reflexivity)
        | (eassert (field_canonical _ (o !! k) = true) as Hfield
             by (eapply (canonical_field t o k);
                 [exact Hcan | simpl; in_shape | server_key]);
           unfold get;
           destruct (o !! k) as [v|]; [destruct v|];
           simpl in Hfield; try discriminate Hfield;
           first
             [ reflexivity
             | exact (has_type_parse (dt_array dt_number) _ (VArray _) Hfield)
             | (simpl;
                repeat match goal with
                       | |- context [Js.isNaN ?n] => destruct (Js.isNaN n)
                       | |- context [JsDate.is_invalid ?d] =>
                           destruct (JsDate.is_invalid d)
                       end;
                first [discriminate Hfield | reflexivity]) ]) ]
  end.

(** C8.  An insert value already in canonical shape for its table
    validates, and the validated value is the value itself. *)
Theorem canonical_unchanged (e : entity) (o : gmap string value) :
  is_canonical (table_of e) o = true ->
  safeParse (insertSchema e) (VObject o) = OK (VObject o).
Proof.
  intros Hcan. unfold safeParse.
  destruct e; simpl insertSchema; simpl table_of in Hcan.
  - rewrite insertUserSchema_eq. apply parse_object_unchanged.
    + keys_nodup.
    + intros k Hk. apply (canonical_keys _ _ _ Hcan) in Hk. exact Hk.
    + repeat apply List.Forall_cons; [..|apply List.Forall_nil].
      all: canonical_field_case users Hcan.
  - rewrite insertPropertySchema_eq. apply parse_object_unchanged.
    + keys_nodup.
    + intros k Hk. pose proof (canonical_keys _ _ _ Hcan Hk) as Hcol.
      destruct (decide (k ∈ server_assigned)) as [Hs|Hs].
      * apply list_elem_of_fmap_1 in Hcol as ([k' c] & -> & Hin).
        simpl in Hk, Hs.
        rewrite (canonical_server _ _ _ _ Hcan Hin Hs) in Hk.
        now destruct Hk.
      * simpl in Hcol. unfold server_assigned in Hs.
        repeat (apply elem_of_cons in Hcol as [->|Hcol];
                [first [exfalso; apply Hs; in_shape; fail | in_shape]|]).
        now apply elem_of_nil in Hcol.
    + repeat apply List.Forall_cons; [..|apply List.Forall_nil].
      all: canonical_field_case properties Hcan.
  - rewrite insertAppointmentSchema_eq. apply parse_object_unchanged.
    + keys_nodup.
    + intros k Hk. pose proof (canonical_keys _ _ _ Hcan Hk) as Hcol.
      destruct (decide (k ∈ server_assigned)) as [Hs|Hs].
      * apply list_elem_of_fmap_1 in Hcol as ([k' c] & -> & Hin).
        simpl in Hk, Hs.
        rewrite (canonical_server _ _ _ _ Hcan Hin Hs) in Hk.
        now destruct Hk.
      * simpl in Hcol. unfold server_assigned in Hs.
        repeat (apply elem_of_cons in Hcol as [->|Hcol];
                [first [exfalso; apply Hs; in_shape; fail | in_shape]|]).
        now apply elem_of_nil in Hcol.
    + repeat apply List.Forall_cons; [..|apply List.Forall_nil].
      all: canonical_field_case appointments Hcan.
Qed.

Lemma canonical_unchanged_witness :
  safeParse insertUserSchema (VObject saved_user) = OK (VObject saved_user)
  /\ safeParse insertPropertySchema (VObject listed_property)
     = OK (VObject listed_property)
  /\ safeParse insertAppointmentSchema (VObject sample_appointment)
     = OK (VObject sample_appointment).
Proof.
  split; [|split].
  - apply (canonical_unchanged User saved_user). vm_compute; reflexivity.
  - apply (canonical_unchanged Property listed_property).
    vm_compute; reflexivity.
  - apply (canonical_unchanged Appointment sample_appointment).
    vm_compute; reflexivity.
Defined.

(** A number that is NaN, or a date without a time value, is not of a
    column's kind, and is turned away when given directly. *)
Example nan_count_rejected :
  is_canonical properties (<["bedrooms" := VNum Js.NaN]> sample_property)
  = false
  /\ safeParse insertPropertySchema
       (VObject (<["bedrooms" := VNum Js.NaN]> sample_property))
     = INVALID [invalid_union [Key "bedrooms"]
                  [[invalid_type [Key "bedrooms"] t_number t_nan];
                   [invalid_type [Key "bedrooms"] t_string t_nan]]].
Proof. split; vm_compute; reflexivity. Qed.

(** * Further properties of the schemas and of the home page *)

(** ** All exported schemas *)

Lemma insertAgentSchema_eq :
  insertAgentSchema = ZObject [
    ("name", z_string);
    ("specialization", z_string);
    ("rating", z_string);
    ("propertiesSold", z_number);
    ("imageUrl", z_string) ].
Proof. reflexivity. Qed.

Lemma exported_is_object s :
  s ∈ exported_schemas -> s = ZObject (shape_of s) /\ NoDup (shape_of s).*1.
Proof.
  intros Hs. unfold exported_schemas in Hs. cases_of Hs.
  all: split; [reflexivity | keys_nodup].
Qed.

Lemma insert_schema_exported t s :
  (t, s) ∈ insert_schemas -> s ∈ exported_schemas.
Proof.
  intros Hs. unfold insert_schemas in Hs.
  repeat (apply elem_of_cons in Hs as [Heq|Hs];
          [injection Heq as -> ->; unfold exported_schemas; in_shape|]).
  now apply elem_of_nil in Hs.
Qed.

(** X1.  A payload that is no object is turned away at the root. *)
Theorem payload_must_be_object (s : schema) (v : value) :
  s ∈ exported_schemas -> (forall o, v <> VObject o) ->
  safeParse s v = INVALID [invalid_type [] t_object (getParsedType v)].
Proof.
  intros Hs Hv. destruct (exported_is_object s Hs) as [-> _].
  unfold safeParse. destruct v; try reflexivity.
  now destruct (Hv fields).
Qed.

Lemma payload_must_be_object_witness :
  safeParse insertAgentSchema VNull = INVALID [invalid_type [] t_object t_null]
  /\ safeParse propertyFilterSchema (VArray [VStr "Austin"])
     = INVALID [invalid_type [] t_object t_array].
Proof.
  split.
  - apply (payload_must_be_object insertAgentSchema VNull);
      [unfold exported_schemas; in_shape | discriminate].
  - apply (payload_must_be_object propertyFilterSchema (VArray [VStr "Austin"]));
      [unfold exported_schemas; in_shape | discriminate].
Defined.

Lemma restrict_lookup keys (o : gmap string value) k :
  k ∈ keys -> restrict keys o !! k = o !! k.
Proof.
  intros Hk. unfold restrict.
  destruct (o !! k) as [v|] eqn:Ho.
  - apply map_lookup_filter_Some. now split.
  - apply map_lookup_filter_None. left. exact Ho.
Qed.

Lemma restrict_lookup_other keys (o : gmap string value) k :
  k ∉ keys -> restrict keys o !! k = None.
Proof.
  intros Hk. unfold restrict. apply map_lookup_filter_None.
  right. intros v _. exact Hk.
Qed.

Lemma object_pairs_restrict shape at_path o :
  object_pairs shape at_path (restrict shape.*1 o)
  = object_pairs shape at_path o.
Proof.
  unfold object_pairs. apply Forall_fmap_ext, Forall_forall.
  intros [k sk] Hin.
  assert (k ∈ shape.*1) as Hk by now apply (list_elem_of_fmap_2 fst) in Hin.
  unfold get, has_key. now rewrite (restrict_lookup _ _ _ Hk).
Qed.

(** X2.  Keys outside a schema's shape change nothing: validation of a
    payload is validation of the payload without them, and no such key
    is in a validated value. *)
Theorem unknown_keys_ignored (s : schema) (o : gmap string value) :
  s ∈ exported_schemas ->
  safeParse s (VObject o) = safeParse s (VObject (restrict (shape_of s).*1 o))
  /\ forall r k, safeParse s (VObject o) = OK (VObject r) ->
                 is_Some (r !! k) -> k ∈ (shape_of s).*1.
Proof.
  intros Hs. destruct (exported_is_object s Hs) as [Heq Hnd].
  unfold safeParse. split.
  - rewrite Heq at 1 2. simpl shape_of at 1.
    now rewrite !parse_object_eq, object_pairs_restrict.
  - intros r k Hp Hk. rewrite Heq in Hp.
    destruct (decide (k ∈ (shape_of s).*1)) as [|Hnot]; [assumption|].
    rewrite (parse_object_strips _ _ _ _ _ Hp Hnot) in Hk. now destruct Hk.
Qed.

Lemma unknown_keys_ignored_witness :
  safeParse insertAgentSchema (VObject tagged_agent)
  = safeParse insertAgentSchema
      (VObject (restrict (shape_of insertAgentSchema).*1 tagged_agent))
  /\ forall r k, safeParse insertAgentSchema (VObject tagged_agent)
                 = OK (VObject r) ->
                 is_Some (r !! k) -> k ∈ (shape_of insertAgentSchema).*1.
Proof.
  apply (unknown_keys_ignored insertAgentSchema tagged_agent).
  unfold exported_schemas; in_shape.
Defined.

Example agent_extra_keys_stripped :
  safeParse insertAgentSchema (VObject tagged_agent)
  = OK (VObject (restrict agent_keys tagged_agent)).
Proof. vm_compute; reflexivity. Qed.

Lemma concat_not_nil {A} (ls : list (list A)) (l : list A) :
  In l ls -> l <> [] -> concat ls <> [].
Proof.
  induction ls as [|l' rest IH]; intros Hin Hl; [destruct Hin|].
  simpl. destruct Hin as [->|Hin].
  - destruct l; [congruence | discriminate].
  - intros Heq. apply app_eq_nil in Heq as [_ Heq]. now apply IH.
Qed.

Lemma forallb_false_exists {A} (f : A -> bool) (l : list A) :
  forallb f l = false -> exists x, In x l /\ f x = false.
Proof.
  induction l as [|x rest IH]; simpl; [discriminate|].
  intros H. apply andb_false_iff in H as [H|H].
  - exists x. now split; [left|].
  - destruct (IH H) as (y & Hy & Hf). exists y. now split; [right|].
Qed.

Lemma first_valid_not_nil at_path results errs issues :
  first_valid at_path results errs = INVALID issues -> issues <> [].
Proof.
  revert errs. induction results as [|[v|iss] rest IH]; intros errs; simpl.
  - intros [= <-]. discriminate.
  - discriminate.
  - apply IH.
Qed.

(** A failed parse always says why. *)
Lemma invalid_has_issue s :
  forall at_path data issues,
    parse s at_path data = INVALID issues -> issues <> [].
Proof.
  induction s as [p| |p f|element IH|inner IH|inner IH|options _|shape IH]
    using schema_nested_ind; intros at_path data issues Hp.
  - simpl in Hp. destruct p, data; simpl in Hp;
      repeat match type of Hp with
             | context [if ?b then _ else _] => destruct b
             end;
      try discriminate; injection Hp as <-; discriminate.
  - discriminate.
  - simpl in Hp. destruct p, data; simpl in Hp;
      repeat match type of Hp with
             | context [if ?b then _ else _] => destruct b
             end;
      try discriminate; injection Hp as <-; discriminate.
  - destruct data; simpl in Hp; try (injection Hp as <-; discriminate).
    unfold mergeArray in Hp.
    destruct (forallb isValid _) eqn:Hall; [discriminate|].
    injection Hp as <-.
    apply forallb_false_exists in Hall as (r & Hr & Hbad).
    apply concat_not_nil with (l := issues_of r); [now apply in_map|].
    apply list_elem_of_In, list_elem_of_lookup_1 in Hr as [n Hn].
    rewrite list_lookup_imap in Hn.
    destruct (items !! n) as [item|]; [|discriminate].
    injection Hn as <-.
    destruct (parse element (at_path ++ [Index n]) item) eqn:He;
      [discriminate|].
    simpl. now apply IH in He.
  - destruct data; simpl in Hp; try (now apply IH in Hp). discriminate.
  - destruct data; simpl in Hp; try (now apply IH in Hp). discriminate.
  - rewrite parse_union_eq in Hp. now apply first_valid_not_nil in Hp.
  - destruct data as [| | | | | | |o];
      try (simpl in Hp; injection Hp as <-; discriminate).
    rewrite parse_object_eq in Hp. unfold mergeObjectSync in Hp.
    destruct (forallb _ _) eqn:Hall; [discriminate|].
    injection Hp as <-.
    apply forallb_false_exists in Hall as ([[k r] a] & Hr & Hbad).
    apply concat_not_nil with (l := issues_of r).
    + apply (in_map (fun '(_, r, _) => issues_of r) _ _ Hr).
    + apply list_elem_of_In, object_pairs_inv in Hr as (sk & Hin & -> & _).
      rewrite Forall_forall in IH.
      destruct (parse sk (at_path ++ [Key k]) (get o k)) eqn:He;
        [discriminate|].
      simpl. now apply (IH _ Hin) in He.
Qed.

Lemma field_issues_pairs shape o :
  concat (map (fun '(_, r, _) => issues_of r) (object_pairs shape [] o))
  = field_issues shape o.
Proof.
  unfold field_issues, object_pairs.
  induction shape as [|[k sk] rest IH]; [reflexivity|].
  rewrite !fmap_cons. simpl. f_equal. exact IH.
Qed.

(** X3.  Issues are gathered, not cut short: a failed validation lists the
    issues of every field that fails, in the order the schema declares
    the fields, and a validation succeeds only when no field has any. *)
Theorem issues_aggregated (s : schema) (o : gmap string value) :
  s ∈ exported_schemas ->
  match safeParse s (VObject o) with
  | OK _ => field_issues (shape_of s) o = []
  | INVALID issues => issues = field_issues (shape_of s) o /\ issues <> []
  end.
Proof.
  intros Hs. destruct (exported_is_object s Hs) as [Heq _].
  destruct s as [| | | | | | |shape]; try discriminate Heq. clear Heq.
  unfold safeParse. rewrite parse_object_eq. simpl shape_of.
  unfold mergeObjectSync.
  destruct (forallb _ _) eqn:Hall.
  - rewrite <- field_issues_pairs.
    rewrite forallb_forall in Hall.
    induction (object_pairs shape [] o) as [|[[k r] a] rest IH];
      [reflexivity|].
    simpl. pose proof (Hall _ (or_introl eq_refl)) as Hr. simpl in Hr.
    destruct r; [|discriminate]. simpl. apply IH.
    intros x Hx. apply Hall. now right.
  - rewrite field_issues_pairs. split; [reflexivity|].
    rewrite <- field_issues_pairs.
    apply forallb_false_exists in Hall as ([[k r] a] & Hr & Hbad).
    apply concat_not_nil with (l := issues_of r).
    + apply (in_map (fun '(_, r, _) => issues_of r) _ _ Hr).
    + apply list_elem_of_In, object_pairs_inv in Hr as (sk & Hin & -> & _).
      destruct (parse sk ([] ++ [Key k]) (get o k)) eqn:He; [discriminate|].
      simpl. now apply invalid_has_issue in He.
Qed.

Example agent_every_issue :
  safeParse insertAgentSchema (VObject nameless_agent)
  = INVALID [invalid_type [Key "name"] t_string t_undefined;
             invalid_type [Key "rating"] t_string t_number;
             invalid_type [Key "propertiesSold"] t_number t_string].
Proof. vm_compute; reflexivity. Qed.

(** X4.  Every issue of a failed validation lies at or below a key the
    schema declares. *)
Theorem issue_under_declared_key (s : schema) (o : gmap string value)
  (issues : list issue) (i : issue) :
  s ∈ exported_schemas ->
  safeParse s (VObject o) = INVALID issues -> i ∈ issues ->
  exists k rest, k ∈ (shape_of s).*1 /\ issue_path i = Key k :: rest.
Proof.
  intros Hs Hp Hi. destruct (exported_is_object s Hs) as [Heq _].
  unfold safeParse in Hp. rewrite Heq in Hp.
  destruct (parse_object_cases (shape_of s) [] o)
    as [[_ Hok]|(issues' & Hbad & Hiss)]; rewrite Hp in *; [discriminate|].
  injection Hbad as <-.
  destruct (Hiss i Hi) as (k & sk & Hin & Hik).
  apply parse_issue_path in Hik as [rest Hrest].
  exists k, rest. split; [|exact Hrest].
  now apply (list_elem_of_fmap_2 fst) in Hin.
Qed.

Lemma issue_under_declared_key_witness :
  exists k rest,
    k ∈ (shape_of insertAgentSchema).*1
    /\ issue_path (invalid_type [Key "rating"] t_string t_number)
       = Key k :: rest.
Proof.
  apply (issue_under_declared_key insertAgentSchema nameless_agent
           [invalid_type [Key "name"] t_string t_undefined;
            invalid_type [Key "rating"] t_string t_number;
            invalid_type [Key "propertiesSold"] t_number t_string]).
  - unfold exported_schemas; in_shape.
  - vm_compute; reflexivity.
  - in_shape.
Defined.

(** ** Columns and the keys of their insert schema *)

Ltac schema_cases H :=
  unfold insert_schemas in H;
  repeat (apply elem_of_cons in H as [H|H]; [injection H as -> ->|]);
  [..|now apply elem_of_nil in H];
  [rewrite insertUserSchema_eq in *
  |rewrite insertPropertySchema_eq in *
  |rewrite insertAppointmentSchema_eq in *
  |rewrite insertAgentSchema_eq in *].

Ltac absurd_member H :=
  solve [exfalso; revert H; apply (bool_decide_unpack _); vm_compute; exact I].

Ltac reject_field o k Ho :=
  match goal with
  | |- context [safeParse (ZObject ?shape) _] =>
      let issues := fresh "issues" in
      let Hp := fresh "Hp" in
      let Hin := fresh "Hin" in
      edestruct (field_rejected shape o k) as (issues & Hp & Hin);
      [in_shape | unfold get; rewrite Ho; reflexivity |];
      exists issues; split; [exact Hp|];
      eexists; split; [apply Hin, list_elem_of_here|]
  end.

Ltac missing_reported :=
  first
    [ apply missing_required
    | apply missing_in_union; [discriminate|];
      repeat (apply List.Forall_cons;
              [split; [discriminate|];
               apply List.Forall_cons;
               [apply missing_required|apply List.Forall_nil]
              |]);
      apply List.Forall_nil ].

(** X5.  In each of the four insert schemas, leaving out the key of a
    column that is not null and has no default fails validation with an
    issue that names the key and reports it missing. *)
Theorem required_column_missing (t : table) (s : schema) (f : string)
  (o : gmap string value) :
  (t, s) ∈ insert_schemas -> f ∈ required_keys t -> o !! f = None ->
  exists issues,
    safeParse s (VObject o) = INVALID issues
    /\ exists i, i ∈ issues /\ issue_path i = [Key f] /\ missing_field f i.
Proof.
  intros Hts Hf Ho. schema_cases Hts.
  all: vm_compute in Hf; cases_of Hf.
  all: match type of Ho with
       | _ !! ?k = None => reject_field o k Ho
       end.
  all: split; [reflexivity | missing_reported].
Qed.

Lemma required_column_missing_witness :
  exists issues,
    safeParse insertAppointmentSchema
      (VObject (delete "date" sample_appointment)) = INVALID issues
    /\ exists i, i ∈ issues /\ issue_path i = [Key "date"]
                 /\ missing_field "date" i.
Proof.
  apply (required_column_missing appointments insertAppointmentSchema "date"
           (delete "date" sample_appointment)).
  - unfold insert_schemas; in_shape.
  - vm_compute; in_shape.
  - vm_compute; reflexivity.
Defined.

(** X6.  In each of the four insert schemas, the key of a column that is
    nullable or has a default may be left out: no issue is raised at it,
    and validation does not put the key, or any default for it, into the
    validated value. *)
Theorem optional_column_omitted (t : table) (s : schema) (f : string)
  (o : gmap string value) :
  (t, s) ∈ insert_schemas -> f ∈ (shape_of s).*1 -> f ∉ required_keys t ->
  o !! f = None ->
  validated s o f VUndefined
  /\ forall r, safeParse s (VObject o) = OK (VObject r) -> r !! f = None.
Proof.
  intros Hts Hf Hnot Ho. schema_cases Hts.
  all: simpl in Hf; cases_of Hf.
  all: try solve [exfalso; apply Hnot; vm_compute; in_shape].
  all: split;
    [ eapply field_validated; [keys_nodup | in_shape |];
      unfold get; rewrite Ho; reflexivity
    | intros r Hp; unfold safeParse in Hp;
      match goal with
      | |- _ !! ?k = None =>
          eapply (parse_object_ok_field _ _ _ _ k) in Hp as (v & Hv & Hr);
          [|keys_nodup|in_shape]
      end;
      unfold get, has_key in Hv, Hr; rewrite Ho in Hv, Hr; simpl in Hv;
      injection Hv as <-; exact Hr ].
Qed.

Lemma optional_column_omitted_witness :
  validated insertPropertySchema sample_property "status" VUndefined
  /\ forall r, safeParse insertPropertySchema (VObject sample_property)
               = OK (VObject r) -> r !! "status" = None.
Proof.
  apply (optional_column_omitted properties insertPropertySchema "status"
           sample_property).
  - unfold insert_schemas; in_shape.
  - vm_compute; in_shape.
  - apply (bool_decide_unpack _); vm_compute; exact I.
  - vm_compute; reflexivity.
Defined.

(** X7.  In each of the four insert schemas [null] is taken exactly at the
    keys of nullable columns: there it validates to [null]; at the key of
    a column declared not null it fails validation with an issue at
    that key. *)
Theorem null_only_where_nullable (t : table) (s : schema) (f : string)
  (c : column) (o : gmap string value) :
  (t, s) ∈ insert_schemas -> (f, c) ∈ columns t -> f ∈ (shape_of s).*1 ->
  o !! f = Some VNull ->
  (notNull c = false -> validated s o f VNull)
  /\ (notNull c = true ->
      exists issues,
        safeParse s (VObject o) = INVALID issues
        /\ exists i, i ∈ issues /\ issue_path i = [Key f]).
Proof.
  intros Hts Hc Hf Ho. schema_cases Hts.
  all: simpl in Hc;
    repeat (apply elem_of_cons in Hc as [Hc|Hc]; [injection Hc as -> ->|]);
    [..|now apply elem_of_nil in Hc].
  all: try absurd_member Hf.
  all: split; intros Hnn; try discriminate Hnn.
  all: try (eapply field_validated; [keys_nodup | in_shape |];
            unfold get; rewrite Ho; reflexivity).
  all: match type of Ho with
       | _ !! ?k = Some VNull => reject_field o k Ho
       end.
  all: reflexivity.
Qed.

Lemma null_only_where_nullable_witness :
  validated insertAppointmentSchema
    (<["message" := VNull]> sample_appointment) "message" VNull
  /\ exists issues,
       safeParse insertAppointmentSchema
         (VObject (<["userId" := VNull]> sample_appointment)) = INVALID issues
       /\ exists i, i ∈ issues /\ issue_path i = [Key "userId"].
Proof.
  split.
  - apply (proj1 (null_only_where_nullable appointments insertAppointmentSchema
                    "message" (text "message")
                    (<["message" := VNull]> sample_appointment)
                    ltac:(unfold insert_schemas; in_shape)
                    ltac:(vm_compute; in_shape) ltac:(vm_compute; in_shape)
                    ltac:(vm_compute; reflexivity))).
    reflexivity.
  - apply (proj2 (null_only_where_nullable appointments insertAppointmentSchema
                    "userId" (integer "user_id" |> set_notNull)
                    (<["userId" := VNull]> sample_appointment)
                    ltac:(unfold insert_schemas; in_shape)
                    ltac:(vm_compute; in_shape) ltac:(vm_compute; in_shape)
                    ltac:(vm_compute; reflexivity))).
    reflexivity.
Defined.

(** ** The agent schema *)

(** X8.  An agent payload validates exactly when [name], [specialization],
    [rating] and [imageUrl] are strings and [propertiesSold] is a number
    that is not NaN, and the validated value is then the payload cut
    down to these five keys; nothing is coerced. *)
Theorem agent_accepted_iff (o r : gmap string value) :
  safeParse insertAgentSchema (VObject o) = OK (VObject r)
  <-> (exists name specialization rating sold image,
         o !! "name" = Some (VStr name)
         /\ o !! "specialization" = Some (VStr specialization)
         /\ o !! "rating" = Some (VStr rating)
         /\ o !! "propertiesSold" = Some (VNum sold)
         /\ Js.isNaN sold = false
         /\ o !! "imageUrl" = Some (VStr image))
      /\ r = restrict agent_keys o.
Proof.
  rewrite insertAgentSchema_eq. unfold safeParse. split.
  - intros Hp.
    assert (NoDup [("name", z_string); ("specialization", z_string);
                   ("rating", z_string); ("propertiesSold", z_number);
                   ("imageUrl", z_string)].*1) as Hnd by keys_nodup.
    pose proof (parse_object_ok_field _ _ _ _ "name" _ Hnd
                  ltac:(in_shape) Hp) as (v1 & Hv1 & Hr1).
    pose proof (parse_object_ok_field _ _ _ _ "specialization" _ Hnd
                  ltac:(in_shape) Hp) as (v2 & Hv2 & Hr2).
    pose proof (parse_object_ok_field _ _ _ _ "rating" _ Hnd
                  ltac:(in_shape) Hp) as (v3 & Hv3 & Hr3).
    pose proof (parse_object_ok_field _ _ _ _ "propertiesSold" _ Hnd
                  ltac:(in_shape) Hp) as (v4 & Hv4 & Hr4).
    pose proof (parse_object_ok_field _ _ _ _ "imageUrl" _ Hnd
                  ltac:(in_shape) Hp) as (v5 & Hv5 & Hr5).
    unfold get, has_key in *.
    destruct (o !! "name") as [[| | | |name| | |]|] eqn:Hname;
      try discriminate Hv1.
    destruct (o !! "specialization") as [[| | | |spec| | |]|] eqn:Hspec;
      try discriminate Hv2.
    destruct (o !! "rating") as [[| | | |rating| | |]|] eqn:Hrating;
      try discriminate Hv3.
    destruct (o !! "propertiesSold") as [[| | |sold| | | |]|] eqn:Hsold;
      try discriminate Hv4.
    destruct (o !! "imageUrl") as [[| | | |image| | |]|] eqn:Himage;
      try discriminate Hv5.
    simpl in Hv4. destruct (Js.isNaN sold) eqn:Hnan; [discriminate|].
    injection Hv1 as <-. injection Hv2 as <-. injection Hv3 as <-.
    injection Hv4 as <-. injection Hv5 as <-.
    split; [now exists name, spec, rating, sold, image|].
    apply map_eq. intros k.
    destruct (decide (k ∈ agent_keys)) as [Hk|Hk].
    + rewrite (restrict_lookup _ _ _ Hk).
      unfold agent_keys in Hk. cases_of Hk.
      all: first [rewrite Hr1, Hname | rewrite Hr2, Hspec
                 | rewrite Hr3, Hrating | rewrite Hr4, Hsold
                 | rewrite Hr5, Himage]; reflexivity.
    + rewrite (restrict_lookup_other _ _ _ Hk).
      apply (parse_object_strips _ _ _ _ _ Hp Hk).
  - intros [(name & spec & rating & sold & image & H1 & H2 & H3 & H4 & Hnan
               & H5) ->].
    rewrite parse_object_eq.
    rewrite <- (object_pairs_restrict _ [] o), <- parse_object_eq.
    apply parse_object_unchanged.
    + keys_nodup.
    + intros k [v Hk].
      destruct (decide (k ∈ agent_keys)) as [|Hnot]; [assumption|].
      change (restrict agent_keys o !! k = Some v) in Hk.
      now rewrite (restrict_lookup_other _ _ _ Hnot) in Hk.
    + change ([("name", z_string); ("specialization", z_string);
               ("rating", z_string); ("propertiesSold", z_number);
               ("imageUrl", z_string)].*1) with agent_keys.
      repeat apply List.Forall_cons; [..|apply List.Forall_nil].
      all: unfold get; rewrite restrict_lookup by (unfold agent_keys; in_shape).
      all: rewrite ?H1, ?H2, ?H3, ?H4, ?H5; simpl; rewrite ?Hnan; reflexivity.
Qed.

Lemma agent_accepted_iff_witness :
  (exists name specialization rating sold image,
      tagged_agent !! "name" = Some (VStr name)
      /\ tagged_agent !! "specialization" = Some (VStr specialization)
      /\ tagged_agent !! "rating" = Some (VStr rating)
      /\ tagged_agent !! "propertiesSold" = Some (VNum sold)
      /\ Js.isNaN sold = false
      /\ tagged_agent !! "imageUrl" = Some (VStr image))
  /\ restrict agent_keys tagged_agent = restrict agent_keys tagged_agent.
Proof.
  apply (proj1 (agent_accepted_iff tagged_agent
                  (restrict agent_keys tagged_agent))).
  vm_compute; reflexivity.
Defined.

(** ** The saved properties of a user *)

Lemma mergeArray_rejects (g : nat -> value -> result) items i v issues :
  items !! i = Some v -> g i v = INVALID issues ->
  exists all, mergeArray (imap g items) = INVALID all
              /\ forall x, x ∈ issues -> x ∈ all.
Proof.
  intros Hi Hg.
  assert (g i v ∈ imap g items) as Hin.
  { apply list_elem_of_lookup. exists i.
    now rewrite list_lookup_imap, Hi. }
  unfold mergeArray.
  destruct (forallb isValid (imap g items)) eqn:Hall.
  - rewrite forallb_forall in Hall.
    apply list_elem_of_In, Hall in Hin. now rewrite Hg in Hin.
  - eexists. split; [reflexivity|].
    intros x Hx. apply list_elem_of_In, in_concat.
    exists issues. split; [|now apply list_elem_of_In].
    apply in_map_iff. exists (g i v). split; [now rewrite Hg|].
    now apply list_elem_of_In.
Qed.

(** X9.  An entry of [savedProperties] that is no number (or is NaN) fails
    the user payload, and the issue points at the entry by its index. *)
Theorem savedProperties_entry_rejected (o : gmap string value)
  (items : list value) (i : nat) (v : value) :
  o !! "savedProperties" = Some (VArray items) ->
  items !! i = Some v -> has_type dt_number v = false ->
  exists issues,
    safeParse insertUserSchema (VObject o) = INVALID issues
    /\ invalid_type [Key "savedProperties"; Index i] t_number
         (getParsedType v) ∈ issues.
Proof.
  intros Ho Hi Hv. rewrite insertUserSchema_eq.
  destruct (mergeArray_rejects
              (fun i item =>
                 parse z_number ([Key "savedProperties"] ++ [Index i]) item)
              items i v
              [invalid_type [Key "savedProperties"; Index i] t_number
                 (getParsedType v)] Hi)
    as (all & Hall & Hsub).
  { destruct v; simpl in Hv; try discriminate; try reflexivity.
    simpl. destruct (Js.isNaN n); [reflexivity | discriminate]. }
  edestruct (field_rejected
               [("id", ZOptional z_number); ("username", z_string);
                ("password", z_string); ("email", z_string);
                ("fullName", z_string);
                ("savedProperties", ZOptional (ZArray z_number));
                ("createdAt", ZOptional (ZNullable z_date))]
               o "savedProperties") as (issues & Hp & Hin);
    [in_shape | unfold get; rewrite Ho; exact Hall |].
  exists issues. split; [exact Hp|]. apply Hin, Hsub, list_elem_of_here.
Qed.

Lemma savedProperties_entry_rejected_witness :
  exists issues,
    safeParse insertUserSchema
      (VObject (<["savedProperties" := VArray [num 4; VStr "9"]]> sample_user))
    = INVALID issues
    /\ invalid_type [Key "savedProperties"; Index 1] t_number t_string
       ∈ issues.
Proof.
  apply (savedProperties_entry_rejected
           (<["savedProperties" := VArray [num 4; VStr "9"]]> sample_user)
           [num 4; VStr "9"] 1 (VStr "9")).
  - vm_compute; reflexivity.
  - reflexivity.
  - reflexivity.
Defined.

(** X10.  [savedProperties] must be an array: any other value that is not
    [undefined], a string among them, fails the user payload with an
    issue at the key. *)
Theorem savedProperties_must_be_array (o : gmap string value) (v : value) :
  o !! "savedProperties" = Some v ->
  v <> VUndefined -> (forall items, v <> VArray items) ->
  exists issues,
    safeParse insertUserSchema (VObject o) = INVALID issues
    /\ invalid_type [Key "savedProperties"] t_array (getParsedType v)
       ∈ issues.
Proof.
  intros Ho Hu Ha. rewrite insertUserSchema_eq.
  edestruct (field_rejected
               [("id", ZOptional z_number); ("username", z_string);
                ("password", z_string); ("email", z_string);
                ("fullName", z_string);
                ("savedProperties", ZOptional (ZArray z_number));
                ("createdAt", ZOptional (ZNullable z_date))]
               o "savedProperties" (ZOptional (ZArray z_number))
               [invalid_type [Key "savedProperties"] t_array
                  (getParsedType v)]) as (issues & Hp & Hin);
    [in_shape | unfold get; rewrite Ho |].
  - destruct v; try reflexivity; [now destruct Hu | now destruct (Ha items)].
  - exists issues. split; [exact Hp|]. apply Hin, list_elem_of_here.
Qed.

Lemma savedProperties_must_be_array_witness :
  exists issues,
    safeParse insertUserSchema
      (VObject (<["savedProperties" := VStr "4,9"]> sample_user))
    = INVALID issues
    /\ invalid_type [Key "savedProperties"] t_array t_string ∈ issues.
Proof.
  apply (savedProperties_must_be_array
           (<["savedProperties" := VStr "4,9"]> sample_user) (VStr "4,9")).
  - vm_compute; reflexivity.
  - discriminate.
  - discriminate.
Defined.

(** ** Where NaN and the invalid date come from *)

Ltac field_of Hp k v Hv Hr :=
  let H := fresh in
  pose proof Hp as H; unfold safeParse in H;
  eapply (parse_object_ok_field _ _ _ _ k) in H as (v & Hv & Hr);
  [|keys_nodup|in_shape].

(** X11.  NaN reaches a validated property only through a string: when a
    key of the validated value holds NaN, the key is one of [bedrooms],
    [bathrooms], [squareFeet] and [yearBuilt] and the payload had a
    string there that [Number] reads as NaN. *)
Theorem nan_only_from_strings (o r : gmap string value) (f : string) :
  safeParse insertPropertySchema (VObject o) = OK (VObject r) ->
  r !! f = Some (VNum Js.NaN) ->
  f ∈ number_coerced_fields
  /\ exists s, o !! f = Some (VStr s) /\ Js.Number s = Js.NaN.
Proof.
  rewrite insertPropertySchema_eq. intros Hp Hnan.
  assert (f ∈ ["title"; "description"; "price"; "address"; "city"; "state";
               "zipCode"; "lat"; "lng"; "bedrooms"; "bathrooms";
               "squareFeet"; "yearBuilt"; "propertyType"; "listingType";
               "imageUrl"; "userId"; "featured"; "status"; "avgRating";
               "ratingCount"]) as Hf.
  { match goal with |- f ∈ ?keys => destruct (decide (f ∈ keys)) as [|Hnot] end;
      [assumption|].
    unfold safeParse in Hp.
    rewrite (parse_object_strips _ _ _ _ _ Hp Hnot) in Hnan. discriminate. }
  cases_of Hf.
  all: match type of Hnan with
       | _ !! ?k = _ => field_of Hp k v Hv Hr
       end.
  all: rewrite Hr in Hnan; clear Hr Hp; unfold get, has_key in *.
  all: destruct (o !! _) as [[| | |n|s| | |]|]; simpl in Hv;
    try discriminate Hv.
  all: try (destruct (Js.isNaN n) eqn:Hn; [discriminate Hv|]).
  all: try (unfold string_to_year in Hv; destruct (String.eqb s ""));
    injection Hv as <-; simpl in Hnan; try discriminate Hnan.
  all: try (injection Hnan as ->; discriminate Hn).
  all: injection Hnan as Hnan.
  all: (split; [unfold number_coerced_fields; in_shape|]);
    exists s; split; [reflexivity | exact Hnan].
Qed.

Lemma nan_only_from_strings_witness :
  "bedrooms" ∈ number_coerced_fields
  /\ exists s, three_bedrooms !! "bedrooms" = Some (VStr s)
               /\ Js.Number s = Js.NaN.
Proof.
  apply (nan_only_from_strings three_bedrooms
           (<["bedrooms" := VNum Js.NaN]> sample_property) "bedrooms").
  - vm_compute; reflexivity.
  - vm_compute; reflexivity.
Defined.

(** X12.  The invalid date reaches a validated appointment only through a
    string: when a key of the validated value holds a date without time
    value, the key is [date] and the payload had a string there that
    [new Date] turns into that date. *)
Theorem invalid_date_only_from_strings (o r : gmap string value)
  (f : string) (d : JsDate.date) :
  safeParse insertAppointmentSchema (VObject o) = OK (VObject r) ->
  r !! f = Some (VDate d) -> JsDate.is_invalid d = true ->
  f = "date"
  /\ exists s, o !! "date" = Some (VStr s) /\ JsDate.new_Date s = d.
Proof.
  rewrite insertAppointmentSchema_eq. intros Hp Hd Hinv.
  assert (f ∈ ["propertyId"; "userId"; "date"; "message"; "status"]) as Hf.
  { match goal with |- f ∈ ?keys => destruct (decide (f ∈ keys)) as [|Hnot] end;
      [assumption|].
    unfold safeParse in Hp.
    rewrite (parse_object_strips _ _ _ _ _ Hp Hnot) in Hd. discriminate. }
  cases_of Hf.
  all: match type of Hd with
       | _ !! ?k = _ => field_of Hp k v Hv Hr
       end.
  all: rewrite Hr in Hd; clear Hr Hp; unfold get, has_key in *.
  all: destruct (o !! _) as [[| | |n|s|d'| |]|]; simpl in Hv;
    try discriminate Hv.
  all: try (destruct (Js.isNaN n) eqn:Hn; [discriminate Hv|]).
  all: try (destruct (JsDate.is_invalid d') eqn:Hd'; [discriminate Hv|]).
  all: injection Hv as <-; simpl in Hd; try discriminate Hd.
  - injection Hd as Hd. split; [reflexivity|].
    exists s. split; [reflexivity | exact Hd].
  - injection Hd as ->. congruence.
Qed.

Lemma invalid_date_only_from_strings_witness :
  "date" = "date"
  /\ exists s, undated_appointment (VStr "not-a-date") !! "date"
               = Some (VStr s)
               /\ JsDate.new_Date s = JsDate.Date None.
Proof.
  apply (invalid_date_only_from_strings
           (undated_appointment (VStr "not-a-date"))
           (undated_appointment (VDate (JsDate.Date None))) "date"
           (JsDate.Date None)).
  - vm_compute; reflexivity.
  - vm_compute; reflexivity.
  - reflexivity.
Defined.

(** ** Validating a validated value again *)

Lemma get_of_entry (r : gmap string value) k v a :
  r !! k = pair_entry (OK v) a -> get r k = v.
Proof.
  intros Hr. unfold get. rewrite Hr. unfold pair_entry. simpl.
  destruct v, a; reflexivity.
Qed.

Lemma revalidates shape o r :
  NoDup shape.*1 ->
  parse (ZObject shape) [] (VObject o) = OK (VObject r) ->
  (forall k sk v, (k, sk) ∈ shape ->
                  parse sk [Key k] (get o k) = OK v -> get r k = v ->
                  parse sk [Key k] v = OK v) ->
  parse (ZObject shape) [] (VObject r) = OK (VObject r).
Proof.
  intros Hnd Hp Hfields. apply parse_object_unchanged; [exact Hnd| |].
  - intros k Hk. destruct (decide (k ∈ shape.*1)) as [|Hnot]; [assumption|].
    rewrite (parse_object_strips _ _ _ _ _ Hp Hnot) in Hk. now destruct Hk.
  - apply Forall_forall. intros [k sk] Hin.
    destruct (parse_object_ok_field _ _ _ _ _ _ Hnd Hin Hp) as (v & Hv & Hr).
    apply get_of_entry in Hr. simpl. rewrite Hr.
    now apply (Hfields k sk v Hin).
Qed.

Lemma imap_values (g : nat -> value -> result) (items : list value) :
  (forall i x y, items !! i = Some x -> g i x = OK y -> y = x) ->
  forallb isValid (imap g items) = true ->
  map value_of (imap g items) = items.
Proof.
  revert g. induction items as [|x rest IH]; intros g Hg Hall; [reflexivity|].
  simpl in *. apply andb_prop in Hall as [Hx Hall].
  destruct (g 0%nat x) as [y|] eqn:Hgx; [|discriminate]. simpl.
  rewrite (Hg 0%nat x y eq_refl Hgx). f_equal.
  apply IH; [|exact Hall]. intros i x' y' Hi. apply (Hg (S i) x' y' Hi).
Qed.

(** The schema of a column's kind checks and changes nothing. *)
Lemma parse_plain_inv (t : data_type) :
  forall at_path v v', parse (mapDataType t) at_path v = OK v' -> v' = v.
Proof.
  induction t as [| | | |base IH]; intros at_path v v' Hp;
    destruct v; simpl in Hp; try discriminate.
  - destruct (Js.isNaN n); [discriminate | now injection Hp].
  - now injection Hp.
  - now injection Hp.
  - destruct (JsDate.is_invalid d); [discriminate | now injection Hp].
  - unfold mergeArray in Hp.
    destruct (forallb isValid _) eqn:Hall; [|discriminate].
    injection Hp as <-. f_equal. apply imap_values; [|exact Hall].
    intros i x y _ Hy. now apply IH in Hy.
Qed.

Lemma stable_plain (t : data_type) : stable (mapDataType t).
Proof.
  intros at_path v v' Hp. pose proof (parse_plain_inv _ _ _ _ Hp) as ->.
  exact Hp.
Qed.

Lemma stable_optional s : stable s -> stable (ZOptional s).
Proof.
  intros Hs at_path v v' Hp.
  assert (v' = VUndefined \/ parse s at_path v' = OK v') as [->|Hv'].
  { destruct v; simpl in Hp; try (right; now apply Hs in Hp).
    left. now injection Hp. }
  - reflexivity.
  - destruct v'; simpl; first [exact Hv' | reflexivity].
Qed.

Lemma stable_nullable s : stable s -> stable (ZNullable s).
Proof.
  intros Hs at_path v v' Hp.
  assert (v' = VNull \/ parse s at_path v' = OK v') as [->|Hv'].
  { destruct v; simpl in Hp; try (right; now apply Hs in Hp).
    left. now injection Hp. }
  - reflexivity.
  - destruct v'; simpl; first [exact Hv' | reflexivity].
Qed.

Lemma stable_decimal :
  stable (ZUnion [z_string; ZTransform PNumber number_to_string]).
Proof.
  intros at_path v v' Hp. destruct v; simpl in Hp; try discriminate.
  - destruct (Js.isNaN n); [discriminate|]. now injection Hp as <-.
  - now injection Hp as <-.
Qed.

Ltac prove_stable :=
  repeat first
    [ apply stable_optional
    | apply stable_nullable
    | exact (stable_plain dt_string)
    | exact (stable_plain dt_number)
    | exact (stable_plain dt_boolean)
    | exact (stable_plain dt_date)
    | exact (stable_plain (dt_array dt_number))
    | exact stable_decimal ].

Ltac shape_cases H :=
  repeat (apply elem_of_cons in H as [H|H]; [injection H as -> ->|]);
  [..|now apply elem_of_nil in H].

(** X13.  The user, agent and filter schemas take their own output: a
    validated value validates again, to itself. *)
Theorem revalidation_is_identity (s : schema) (o r : gmap string value) :
  s ∈ [insertUserSchema; insertAgentSchema; propertyFilterSchema] ->
  safeParse s (VObject o) = OK (VObject r) ->
  safeParse s (VObject r) = OK (VObject r).
Proof.
  intros Hs Hp. unfold safeParse in *. cases_of Hs.
  - rewrite insertUserSchema_eq in *.
    apply (revalidates _ o); [keys_nodup | exact Hp |].
    intros k sk v Hin Hv _. shape_cases Hin.
    all: match goal with
         | |- parse ?sk _ _ = _ =>
             assert (stable sk) as Hst by prove_stable
         end; exact (Hst _ _ _ Hv).
  - rewrite insertAgentSchema_eq in *.
    apply (revalidates _ o); [keys_nodup | exact Hp |].
    intros k sk v Hin Hv _. shape_cases Hin.
    all: match goal with
         | |- parse ?sk _ _ = _ =>
             assert (stable sk) as Hst by prove_stable
         end; exact (Hst _ _ _ Hv).
  - unfold propertyFilterSchema in *.
    apply (revalidates _ o); [keys_nodup | exact Hp |].
    intros k sk v Hin Hv _. shape_cases Hin.
    all: match goal with
         | |- parse ?sk _ _ = _ =>
             assert (stable sk) as Hst by prove_stable
         end; exact (Hst _ _ _ Hv).
Qed.

Lemma revalidation_is_identity_witness :
  safeParse insertUserSchema (VObject user_with_id)
  = OK (VObject user_with_id).
Proof.
  apply (revalidation_is_identity insertUserSchema user_with_id user_with_id).
  - in_shape.
  - vm_compute; reflexivity.
Defined.

Lemma not_nan_held (r : gmap string value) k n :
  get r k = VNum n -> r !! k <> Some (VNum Js.NaN) -> Js.isNaN n = false.
Proof.
  unfold get. intros Hg Hno. destruct (r !! k) as [v|]; [|discriminate].
  simpl in Hg. subst v. destruct n; try reflexivity. now destruct Hno.
Qed.

(** X14.  A validated property validates again, to itself, exactly when
    none of [bedrooms], [bathrooms], [squareFeet] and [yearBuilt] came
    out as NaN. *)
Theorem property_revalidates_iff (o r : gmap string value) :
  safeParse insertPropertySchema (VObject o) = OK (VObject r) ->
  safeParse insertPropertySchema (VObject r) = OK (VObject r)
  <-> forall f, f ∈ number_coerced_fields -> r !! f <> Some (VNum Js.NaN).
Proof.
  rewrite insertPropertySchema_eq. unfold safeParse. intros Hp. split.
  - intros Hagain f Hf Hnan. unfold number_coerced_fields in Hf.
    cases_of Hf.
    all: match type of Hnan with
         | _ !! ?k = _ =>
             match type of Hagain with
             | parse (ZObject ?shape) _ _ = _ =>
                 edestruct (field_rejected shape r k) as (all & Hbad & _);
                 [in_shape | unfold get; rewrite Hnan; reflexivity |]
             end
         end.
    all: unfold safeParse in Hbad; rewrite Hagain in Hbad; discriminate.
  - intros Hno. apply (revalidates _ o); [keys_nodup | exact Hp |].
    intros k sk v Hin Hv Hget. shape_cases Hin.
    all: try (match goal with
              | |- parse ?sk _ _ = _ =>
                  assert (stable sk) as Hst by prove_stable
              end; exact (Hst _ _ _ Hv)).
    all: match type of Hget with
         | get _ ?k = _ =>
             pose proof (Hno k ltac:(unfold number_coerced_fields; in_shape))
               as Hk
         end.
    all: destruct (get o _) as [| | |n|s| | |]; simpl in Hv;
      try discriminate Hv.
    all: try (destruct (Js.isNaN n) eqn:Hn; [discriminate Hv|]).
    all: try (unfold string_to_year in Hv; destruct (String.eqb s ""));
      injection Hv as <-; try reflexivity.
    all: simpl; try (rewrite Hn; reflexivity).
    all: now rewrite (not_nan_held _ _ _ Hget Hk).
Qed.

Lemma property_revalidates_iff_witness :
  (safeParse insertPropertySchema (VObject sample_property)
   = OK (VObject sample_property)
   <-> forall f, f ∈ number_coerced_fields ->
                 sample_property !! f <> Some (VNum Js.NaN))
  /\ (safeParse insertPropertySchema
        (VObject (<["bedrooms" := VNum Js.NaN]> sample_property))
      = OK (VObject (<["bedrooms" := VNum Js.NaN]> sample_property))
      <-> forall f, f ∈ number_coerced_fields ->
                    <["bedrooms" := VNum Js.NaN]> sample_property !! f
                    <> Some (VNum Js.NaN)).
Proof.
  split.
  - apply (property_revalidates_iff
             (<["bedrooms" := VStr "3"]> sample_property) sample_property).
    vm_compute; reflexivity.
  - apply (property_revalidates_iff three_bedrooms
             (<["bedrooms" := VNum Js.NaN]> sample_property)).
    vm_compute; reflexivity.
Defined.

(** X15.  A validated appointment validates again, to itself, exactly when
    its [date] did not come out as the invalid date. *)
Theorem appointment_revalidates_iff (o r : gmap string value) :
  safeParse insertAppointmentSchema (VObject o) = OK (VObject r) ->
  safeParse insertAppointmentSchema (VObject r) = OK (VObject r)
  <-> forall d, r !! "date" = Some (VDate d) -> JsDate.is_invalid d = false.
Proof.
  rewrite insertAppointmentSchema_eq. unfold safeParse. intros Hp. split.
  - intros Hagain d Hd.
    destruct (JsDate.is_invalid d) eqn:Hinv; [|reflexivity].
    match type of Hagain with
    | parse (ZObject ?shape) _ _ = _ =>
        edestruct (field_rejected shape r "date") as (all & Hbad & _);
        [in_shape | unfold get; rewrite Hd; simpl; rewrite Hinv; reflexivity |]
    end.
    unfold safeParse in Hbad. rewrite Hagain in Hbad. discriminate.
  - intros Hvalid. apply (revalidates _ o); [keys_nodup | exact Hp |].
    intros k sk v Hin Hv Hget. shape_cases Hin.
    all: try (match goal with
              | |- parse ?sk _ _ = _ =>
                  assert (stable sk) as Hst by prove_stable
              end; exact (Hst _ _ _ Hv)).
    assert (forall d, v = VDate d -> JsDate.is_invalid d = false) as Hd.
    { intros d ->. apply Hvalid. unfold get in Hget.
      destruct (r !! "date") as [x|]; [|discriminate]. simpl in Hget.
      now subst x. }
    destruct (get o "date") as [| | | |s|d| |]; simpl in Hv;
      try discriminate Hv.
    + injection Hv as <-. simpl. unfold string_to_date.
      now rewrite (Hd _ eq_refl).
    + destruct (JsDate.is_invalid d) eqn:Hinv; [discriminate|].
      injection Hv as <-. simpl. now rewrite Hinv.
Qed.

Lemma appointment_revalidates_iff_witness :
  safeParse insertAppointmentSchema (VObject sample_appointment)
  = OK (VObject sample_appointment)
  <-> forall d, sample_appointment !! "date" = Some (VDate d) ->
                JsDate.is_invalid d = false.
Proof.
  apply (appointment_revalidates_iff
           (undated_appointment (VStr "2024-05-01T10:00:00Z"))
           sample_appointment).
  vm_compute; reflexivity.
Defined.

(** ** What the filter takes *)

Lemma optional_string_valid at_path (v : option value) :
  isValid (parse (ZOptional z_string) at_path (option.default VUndefined v))
  = string_or_absent v.
Proof. destruct v as [[]|]; reflexivity. Qed.

Lemma object_pairs_valid shape at_path o :
  forallb (fun '(_, r, _) => isValid r) (object_pairs shape at_path o)
  = forallb (fun '(k, sk) =>
               isValid (parse sk (at_path ++ [Key k]) (get o k))) shape.
Proof.
  unfold object_pairs.
  induction shape as [|[k sk] rest IH]; [reflexivity|].
  rewrite fmap_cons. cbn [forallb]. now rewrite IH.
Qed.

Lemma optional_strings_valid (o : gmap string value) (keys : list string) :
  forallb (fun '(k, sk) => isValid (parse sk ([] ++ [Key k]) (get o k)))
          ((fun k => (k, ZOptional z_string)) <$> keys)
  = forallb (fun k => string_or_absent (o !! k)) keys.
Proof.
  induction keys as [|k rest IH]; [reflexivity|].
  rewrite fmap_cons. cbn [forallb]. rewrite IH. f_equal.
  apply optional_string_valid.
Qed.

(** X16.  A filter object validates exactly when each of the eleven keys is
    absent, [undefined] or a string; a number or [null] at one of them
    fails it. *)
Theorem filter_accepts_iff (o : gmap string value) :
  isValid (safeParse propertyFilterSchema (VObject o))
  = forallb (fun k => string_or_absent (o !! k)) filter_keys.
Proof.
  unfold safeParse.
  change propertyFilterSchema
    with (ZObject ((fun k => (k, ZOptional z_string)) <$> filter_keys)).
  rewrite parse_object_eq. unfold mergeObjectSync.
  rewrite object_pairs_valid, optional_strings_valid.
  now destruct (forallb _ filter_keys).
Qed.

Example filter_number_rejected :
  safeParse propertyFilterSchema (VObject {["minPrice" := num 100000]})
  = INVALID [invalid_type [Key "minPrice"] t_string t_number].
Proof. vm_compute; reflexivity. Qed.

(** ** The home page *)

Lemma existsb_truthy_listingType (f : Home.PropertyFilter) :
  Home.truthy (Home.listingType f) = true ->
  existsb Home.truthy (Home.Object_values f) = true.
Proof.
  intros H. apply existsb_exists. exists (Home.listingType f).
  split; [|exact H]. unfold Home.Object_values. simpl. tauto.
Qed.

(** X17.  Submitting the filter form always stores the new filters and
    leaves the modal alone; it navigates exactly when some filter value
    is a non-empty string: to the page of the listing type when that is
    one, to [/buy] otherwise. *)
Theorem filter_submit_navigation (st : Home.state) (f : Home.PropertyFilter) :
  let st' := Home.step st (Home.FilterSubmit f) in
  Home.filters st' = f
  /\ Home.selectedProperty st' = Home.selectedProperty st
  /\ Home.appointmentModalOpen st' = Home.appointmentModalOpen st
  /\ (existsb Home.truthy (Home.Object_values f) = false ->
      Home.location st' = Home.location st)
  /\ (existsb Home.truthy (Home.Object_values f) = true ->
      Home.location st'
      = match Home.listingType f with
        | Some to => if Home.truthy (Some to) then "/" +:+ to else "/buy"
        | None => "/buy"
        end).
Proof.
  unfold Home.step, Home.handle, Home.handleFilterSubmit.
  pose proof (existsb_truthy_listingType f) as Hlt.
  destruct (Home.listingType f) as [to|];
    [destruct (Home.truthy (Some to)) eqn:Ht|];
    destruct (existsb Home.truthy (Home.Object_values f)) eqn:Hsome;
    simpl; repeat split; try reflexivity; try discriminate.
  all: intros _; now specialize (Hlt eq_refl).
Qed.


Lemma step_consistent (st : Home.state) (e : Home.event) :
  modal_consistent st -> modal_consistent (Home.step st e).
Proof.
  unfold modal_consistent. intros Hst. destruct e as [f|featured pid|name|].
  - destruct (filter_submit_navigation st f) as (_ & -> & -> & _). exact Hst.
  - unfold Home.step, Home.handle, Home.handleScheduleViewing.
    destruct (find _ featured) as [p|]; simpl; [|exact Hst].
    split; [now eexists | reflexivity].
  - simpl. exact Hst.
  - simpl. split; [discriminate | now intros [p Hp]].
Qed.

(** X18.  However the page is used, from its first render on, the modal is
    open exactly when a property is selected; so whenever the
    appointment form is rendered it is rendered open. *)
Theorem modal_open_iff_selected (at_location : string)
  (events : list Home.event) :
  let st := fold_left Home.step events (Home.initial at_location) in
  modal_consistent st
  /\ forall propertyId propertyTitle isOpen,
       Home.appointment_form st = Some (propertyId, propertyTitle, isOpen) ->
       isOpen = true.
Proof.
  assert (modal_consistent
            (fold_left Home.step events (Home.initial at_location))) as Hc.
  { assert (modal_consistent (Home.initial at_location)) as Hinit.
    { split; [discriminate | now intros [p Hp]]. }
    revert Hinit. generalize (Home.initial at_location).
    induction events as [|e rest IH]; intros st Hst; [exact Hst|].
    simpl. apply IH. now apply step_consistent. }
  split; [exact Hc|].
  intros pid title isOpen Hform. unfold Home.appointment_form in Hform.
  destruct (Home.selectedProperty _) as [p|] eqn:Hsel; [|discriminate].
  injection Hform as _ _ <-. apply Hc. rewrite Hsel. now eexists.
Qed.

(** X19.  A viewing can be scheduled for featured properties only.  Asked
    for an id that no featured property has, the page does nothing;
    otherwise it selects the first featured property with that id and
    opens the modal, location and filters staying as they are. *)
Theorem schedule_viewing_selects (st : Home.state)
  (featured : list Select.Property) (pid : Js.number) :
  let st' := Home.step st (Home.ScheduleViewing featured pid) in
  ((forall p, p ∈ featured -> Home.strict_equal (Select.id p) pid = false) ->
   st' = st)
  /\ ((exists p, p ∈ featured /\ Home.strict_equal (Select.id p) pid = true) ->
      exists p before after,
        featured = before ++ p :: after
        /\ Home.strict_equal (Select.id p) pid = true
        /\ (forall q, q ∈ before ->
                      Home.strict_equal (Select.id q) pid = false)
        /\ Home.selectedProperty st' = Some p
        /\ Home.appointmentModalOpen st' = true
        /\ Home.location st' = Home.location st
        /\ Home.filters st' = Home.filters st).
Proof.
  unfold Home.step, Home.handle, Home.handleScheduleViewing. split.
  - intros Hnone.
    destruct (find _ featured) as [p|] eqn:Hfind; [|reflexivity].
    apply find_some in Hfind as [Hin Hid].
    apply list_elem_of_In, Hnone in Hin. congruence.
  - intros (p0 & Hin0 & Hid0).
    induction featured as [|q rest IH]; [now apply elem_of_nil in Hin0|].
    simpl. destruct (Home.strict_equal (Select.id q) pid) eqn:Hq.
    + exists q, [], rest. simpl. repeat split; try reflexivity; try exact Hq.
      intros q' Hq'. now apply elem_of_nil in Hq'.
    + apply elem_of_cons in Hin0 as [->|Hin0]; [congruence|].
      destruct (IH Hin0) as (p & before & after & -> & Hp & Hbefore & Hrest).
      exists p, (q :: before), after. split; [reflexivity|].
      split; [exact Hp|]. split; [|exact Hrest].
      intros q' Hq'. apply elem_of_cons in Hq' as [->|Hq']; auto.
Qed.

Example nan_id_never_found (p : Select.Property) :
  Home.strict_equal (Select.id p) Js.NaN = false.
Proof. now destruct (Select.id p). Qed.

(** X20.  The grid shows six skeletons while the properties load, the
    notice when there are none, and otherwise the first six properties
    at most, in the order they came. *)
Theorem listing_first_six (isLoading : bool)
  (properties : list Select.Property) :
  match Home.property_listing isLoading properties with
  | Home.Skeletons keys => isLoading = true /\ keys = [0; 1; 2; 3; 4; 5]%nat
  | Home.Cards cards =>
      isLoading = false /\ cards <> []
      /\ length cards = Nat.min 6 (length properties)
      /\ cards `prefix_of` properties
  | Home.NoProperties => isLoading = false /\ properties = []
  end.
Proof.
  unfold Home.property_listing. destruct isLoading; [now split|].
  destruct properties as [|p rest]; [now split|].
  change (0 <? length (p :: rest))%nat with true. cbv iota.
  split; [reflexivity|]. split; [discriminate|].
  split; [apply length_take|].
  exists (drop 6 (p :: rest)). symmetry. apply take_drop.
Qed.

Lemma issues_aggregated_witness :
  match safeParse insertAgentSchema (VObject nameless_agent) with
  | OK _ => field_issues (shape_of insertAgentSchema) nameless_agent = []
  | INVALID issues =>
      issues = field_issues (shape_of insertAgentSchema) nameless_agent
      /\ issues <> []
  end.
Proof.
  apply (issues_aggregated insertAgentSchema nameless_agent).
  unfold exported_schemas; in_shape.
Defined.

Lemma filter_submit_navigation_witness :
  let st' := Home.step (Home.initial "/") (Home.FilterSubmit rent_filter) in
  Home.filters st' = rent_filter
  /\ Home.selectedProperty st' = None
  /\ Home.appointmentModalOpen st' = false
  /\ Home.location st' = "/rent".
Proof.
  destruct (filter_submit_navigation (Home.initial "/") rent_filter)
    as (Hf & Hs & Hm & _ & Hto).
  cbv zeta. split; [exact Hf|]. split; [exact Hs|]. split; [exact Hm|].
  exact (Hto eq_refl).
Defined.

Example empty_filter_stays :
  Home.step (Home.initial "/") (Home.FilterSubmit Home.no_filters)
  = Home.initial "/".
Proof. reflexivity. Qed.

Lemma modal_open_iff_selected_witness :
  modal_consistent (fold_left Home.step visit (Home.initial "/"))
  /\ forall propertyId propertyTitle isOpen,
       Home.appointment_form (fold_left Home.step visit (Home.initial "/"))
       = Some (propertyId, propertyTitle, isOpen) -> isOpen = true.
Proof. apply (modal_open_iff_selected "/" visit). Defined.

Lemma schedule_viewing_selects_witness :
  Home.step (Home.initial "/") (Home.ScheduleViewing featured_rows (Js.of_Z 7))
  = Home.initial "/"
  /\ exists p before after,
       featured_rows = before ++ p :: after
       /\ Home.strict_equal (Select.id p) (Js.of_Z 2) = true
       /\ (forall q, q ∈ before ->
                     Home.strict_equal (Select.id q) (Js.of_Z 2) = false)
       /\ Home.selectedProperty
            (Home.step (Home.initial "/")
               (Home.ScheduleViewing featured_rows (Js.of_Z 2))) = Some p
       /\ Home.appointmentModalOpen
            (Home.step (Home.initial "/")
               (Home.ScheduleViewing featured_rows (Js.of_Z 2))) = true
       /\ Home.location
            (Home.step (Home.initial "/")
               (Home.ScheduleViewing featured_rows (Js.of_Z 2))) = "/"
       /\ Home.filters
            (Home.step (Home.initial "/")
               (Home.ScheduleViewing featured_rows (Js.of_Z 2)))
          = Home.no_filters.
Proof.
  split.
  - apply (proj1 (schedule_viewing_selects (Home.initial "/") featured_rows
                    (Js.of_Z 7))).
    intros p Hp. unfold featured_rows in Hp. cases_of Hp; reflexivity.
  - apply (proj2 (schedule_viewing_selects (Home.initial "/") featured_rows
                    (Js.of_Z 2))).
    exists (sample_row 2 "Garden flat"). split; [|reflexivity].
    unfold featured_rows; in_shape.
Defined.

Example viewing_takes_first_match :
  Home.appointment_form
    (Home.step (Home.initial "/")
       (Home.ScheduleViewing featured_rows (Js.of_Z 2)))
  = Some (Js.of_Z 2, "Garden flat", true).
Proof. reflexivity. Qed.
